(** * LinkedInModal: the authorization-callback handshake

    A shallow embedding of [src/index.tsx] of react-native-linkedin-oauth2:
    the navigation intercept [handleNavigationStateChange] of the
    [LinkedInModal] component and the handshake [handleAuthCallback]
    (authorization code -> access token -> profile).

    The component is event driven.  A run of a handler is modelled by the
    sequence of calls it makes to its surroundings (the host's callbacks, the
    loading-flag setter, [fetch]) together with the way it completes
    (a value, or a thrown JavaScript value).  What the surroundings answer is
    given by an environment [Env]. *)

From Stdlib Require Import Bool Arith NArith List Ascii String Lia.
Import ListNotations.
Local Open Scope string_scope.

Set Warnings "-register-all".

(** ** JavaScript strings

    A string is the sequence of the bytes of its UTF-8 encoding; the texts
    the component compares against (['code='], ['error='],
    ['network request failed']) are ASCII. *)

(** [s.startsWith(p)] *)
Definition startsWith (s p : string) : bool := String.prefix p s.

(** [s.includes(p)]: [p] occurs in [s] at some position. *)
Fixpoint includes (s p : string) : bool :=
  String.prefix p s ||
  match s with
  | EmptyString => false
  | String _ s' => includes s' p
  end.

Definition isUpper (c : ascii) : bool :=
  Nat.leb 65 (nat_of_ascii c) && Nat.leb (nat_of_ascii c) 90.

Definition toLower (c : ascii) : ascii :=
  if isUpper c then ascii_of_nat (nat_of_ascii c + 32) else c.

Definition isAscii (c : ascii) : bool := Nat.ltb (nat_of_ascii c) 128.

(** The lower case of a text, the bytes that are not ASCII being written
    by [other], which is given the index of the byte.  The lower case of
    an ASCII byte does not depend on what is around it. *)
Fixpoint lowerFrom (other : nat -> string) (i : nat) (s : string) : string :=
  match s with
  | EmptyString => EmptyString
  | String c s' =>
      (if isAscii c then String (toLower c) EmptyString else other i)
      ++ lowerFrom other (S i) s'
  end.

(** The lower case of the ASCII letters alone, every other byte kept. *)
Fixpoint lowerASCII (s : string) : string :=
  match s with
  | EmptyString => EmptyString
  | String c s' => String (toLower c) (lowerASCII s')
  end.

(** Every byte of [s] passes the test [f]. *)
Fixpoint allBytes (f : ascii -> bool) (s : string) : bool :=
  match s with
  | EmptyString => true
  | String c s' => f c && allBytes f s'
  end.

(** Some byte of [s] passes the test [f]. *)
Fixpoint anyByte (f : ascii -> bool) (s : string) : bool :=
  match s with
  | EmptyString => false
  | String c s' => f c || anyByte f s'
  end.

Definition inRange (lower upper : nat) (c : ascii) : bool :=
  Nat.leb lower (nat_of_ascii c) && Nat.leb (nat_of_ascii c) upper.

Definition isByte (n : nat) (c : ascii) : bool := Nat.eqb (nat_of_ascii c) n.

(** The bytes are well-formed UTF-8: each character is an ASCII byte, or
    one of the sequences of two, three and four bytes that encode a
    code point in the shortest way, the surrogates left out.  The bytes
    of a JavaScript string are, a lone surrogate having no encoding. *)
Fixpoint wellFormedUTF8 (s : string) : bool :=
  match s with
  | EmptyString => true
  | String a s1 =>
      if isAscii a then wellFormedUTF8 s1
      else
        match s1 with
        | EmptyString => false
        | String b s2 =>
            if inRange 194 223 a then inRange 128 191 b && wellFormedUTF8 s2
            else
              match s2 with
              | EmptyString => false
              | String c s3 =>
                  if inRange 224 239 a
                  then ((isByte 224 a && inRange 160 191 b)
                        || (inRange 225 236 a && inRange 128 191 b)
                        || (isByte 237 a && inRange 128 159 b)
                        || (inRange 238 239 a && inRange 128 191 b))
                       && inRange 128 191 c && wellFormedUTF8 s3
                  else
                    match s3 with
                    | EmptyString => false
                    | String d s4 =>
                        ((isByte 240 a && inRange 144 191 b)
                         || (inRange 241 243 a && inRange 128 191 b)
                         || (isByte 244 a && inRange 128 143 b))
                        && inRange 128 191 c && inRange 128 191 d
                        && wellFormedUTF8 s4
                    end
              end
        end
  end.

(** ** JavaScript values, as far as the handshake observes them

    The values are the results of [Response.json()] and of reading their
    properties.  The handshake only tests a value for truthiness, reads a
    named property of it, and converts it to a string (in [new Error(v)]
    and in a template literal).  A number is kept as what those three
    operations see of it: whether it is truthy (neither zero nor NaN) and
    its decimal text. *)
Inductive js : Type :=
| JUndefined
| JNull
| JBool (b : bool)
| JNumber (nonzero : bool) (text : string)
| JString (s : string)
| JArray (items : list js)
| JObject (fields : list (string * js)).

(** ToBoolean *)
Definition truthy (v : js) : bool :=
  match v with
  | JUndefined | JNull => false
  | JBool b => b
  | JNumber nz _ => nz
  | JString s => negb (s =? EmptyString)
  | JArray _ | JObject _ => true
  end.

Definition nullish (v : js) : bool :=
  match v with
  | JUndefined | JNull => true
  | _ => false
  end.

Fixpoint lookup (k : string) (fields : list (string * js)) : js :=
  match fields with
  | [] => JUndefined
  | (k', v) :: rest => if k' =? k then v else lookup k rest
  end.

(** [v.k] for a value [v] that is neither null nor undefined, and a name
    [k] that no prototype defines ([access_token], [error_description],
    [message]): own properties exist on objects only. *)
Definition property (v : js) (k : string) : js :=
  match v with
  | JObject fields => lookup k fields
  | _ => JUndefined
  end.

(** The object has an own property [k]. *)
Definition hasOwn (k : string) (fields : list (string * js)) : bool :=
  existsb (fun field => fst field =? k) fields.

(** ToString, [None] when it throws a [TypeError].  An array joins the
    texts of its items with commas, null and undefined items giving the
    empty text.  An object is converted by its [toString]: the inherited
    one gives '[object Object]'; an own property [toString] of a value
    read from JSON is not a function, and then neither it nor the
    inherited [valueOf] gives a primitive value. *)
Fixpoint toString (v : js) : option string :=
  match v with
  | JUndefined => Some "undefined"
  | JNull => Some "null"
  | JBool true => Some "true"
  | JBool false => Some "false"
  | JNumber _ text => Some text
  | JString s => Some s
  | JArray items =>
      (fix join (l : list js) : option string :=
         match l with
         | [] => Some EmptyString
         | x :: rest =>
             match (if nullish x then Some EmptyString else toString x), join rest with
             | Some first, Some others =>
                 Some (match rest with
                       | [] => first
                       | _ :: _ => first ++ "," ++ others
                       end)
             | _, _ => None
             end
         end) items
  | JObject fields =>
      if hasOwn "toString" fields then None else Some "[object Object]"
  end.

(** What a [throw] carries: an instance of [Error] (also [TypeError],
    [SyntaxError]) with its message, or any other value. *)
Inductive thrown : Type :=
| ErrorObj (message : string)
| NonError.

(** ** The platform's [URLSearchParams]

    A list of name-value pairs, in order. *)
Definition URLSearchParams : Type := list (string * string).

(** [params.get(name)]: the value of the first pair called [name], or
    [null]. *)
Fixpoint get (params : URLSearchParams) (name : string) : option string :=
  match params with
  | [] => None
  | (k, v) :: rest => if k =? name then Some v else get rest name
  end.

Definition hexDigit (n : nat) : ascii :=
  ascii_of_nat (if Nat.ltb n 10 then 48 + n else 55 + n).

(** One byte of the application/x-www-form-urlencoded serializer. *)
Definition urlencodeByte (c : ascii) : string :=
  let n := nat_of_ascii c in
  if Nat.eqb n 32 then "+"
  else if Nat.eqb n 42 || Nat.eqb n 45 || Nat.eqb n 46 || Nat.eqb n 95
          || (Nat.leb 48 n && Nat.leb n 57)
          || (Nat.leb 65 n && Nat.leb n 90)
          || (Nat.leb 97 n && Nat.leb n 122)
  then String c EmptyString
  else String "%" (String (hexDigit (n / 16)) (String (hexDigit (n mod 16)) EmptyString)).

Fixpoint urlencode (s : string) : string :=
  match s with
  | EmptyString => EmptyString
  | String c s' => urlencodeByte c ++ urlencode s'
  end.

(** [params.toString()] *)
Fixpoint URLSearchParams_toString (params : URLSearchParams) : string :=
  match params with
  | [] => EmptyString
  | [(k, v)] => urlencode k ++ "=" ++ urlencode v
  | (k, v) :: rest =>
      urlencode k ++ "=" ++ urlencode v ++ "&" ++ URLSearchParams_toString rest
  end.

(** ** A reference model of [new URL(url).searchParams]

    The environment below takes the platform's URL parser as a parameter.
    This module gives one, after the WHATWG URL standard, for the concrete
    runs.  The input is trimmed; it must begin with a scheme followed by a
    colon (there is no base URL, so anything else is a failure); the
    authority is parsed as far as it decides whether the constructor
    throws: the credentials are skipped, the host is a domain without a
    forbidden code point, an IPv4 address when it ends in a number, an
    IPv6 address in square brackets, or an opaque host, and the port is a
    number up to 65535.  The query is the text between the first [?] and
    the first [#], read as application/x-www-form-urlencoded: the
    percent-encoding that the URL parser applies to a query is undone by
    that reading and is left out.  Internationalised domain names are not
    modelled: the bytes of a domain outside ASCII, and its labels that
    begin with [xn--], are taken as they are. *)
Module WHATWG.

Definition isAlpha (c : ascii) : bool :=
  let n := nat_of_ascii c in
  (Nat.leb 65 n && Nat.leb n 90) || (Nat.leb 97 n && Nat.leb n 122).

Definition isDigit (c : ascii) : bool :=
  let n := nat_of_ascii c in Nat.leb 48 n && Nat.leb n 57.

Definition isSchemeChar (c : ascii) : bool :=
  isAlpha c || isDigit c || (c =? "+")%char || (c =? "-")%char || (c =? ".")%char.

Definition isC0OrSpace (c : ascii) : bool := Nat.leb (nat_of_ascii c) 32.

Definition isTabOrNewline (c : ascii) : bool :=
  let n := nat_of_ascii c in Nat.eqb n 9 || Nat.eqb n 10 || Nat.eqb n 13.

Fixpoint allC0OrSpace (s : string) : bool :=
  match s with
  | EmptyString => true
  | String c s' => isC0OrSpace c && allC0OrSpace s'
  end.

Fixpoint trimStart (s : string) : string :=
  match s with
  | EmptyString => EmptyString
  | String c s' => if isC0OrSpace c then trimStart s' else s
  end.

Fixpoint trimEnd (s : string) : string :=
  match s with
  | EmptyString => EmptyString
  | String c s' => if allC0OrSpace s then EmptyString else String c (trimEnd s')
  end.

Fixpoint removeTabsAndNewlines (s : string) : string :=
  match s with
  | EmptyString => EmptyString
  | String c s' =>
      if isTabOrNewline c then removeTabsAndNewlines s'
      else String c (removeTabsAndNewlines s')
  end.

(** *** The scheme *)

(** Scheme state: scheme characters up to the colon; gives the scheme, in
    lower case, and what follows the colon. *)
Fixpoint schemeState (s : string) : option (string * string) :=
  match s with
  | EmptyString => None
  | String c s' =>
      if (c =? ":")%char then Some (EmptyString, s')
      else if isSchemeChar c
           then match schemeState s' with
                | Some (scheme, rest) => Some (String (toLower c) scheme, rest)
                | None => None
                end
           else None
  end.

(** Scheme start state; without a base URL, an input that does not begin
    with a scheme is a failure. *)
Definition schemeStartState (s : string) : option (string * string) :=
  match s with
  | EmptyString => None
  | String c _ => if isAlpha c then schemeState s else None
  end.

(** [s] cut at the first [sep]: what is before it and, when [sep]
    occurs, what is after it. *)
Fixpoint cut (sep : ascii) (s : string) : string * option string :=
  match s with
  | EmptyString => (EmptyString, None)
  | String c s' =>
      if (c =? sep)%char then (EmptyString, Some s')
      else let (before, after) := cut sep s' in (String c before, after)
  end.

Definition hexValue (c : ascii) : option nat :=
  let n := nat_of_ascii c in
  if Nat.leb 48 n && Nat.leb n 57 then Some (n - 48)
  else if Nat.leb 65 n && Nat.leb n 70 then Some (n - 55)
  else if Nat.leb 97 n && Nat.leb n 102 then Some (n - 87)
  else None.

(** Percent-decoding: the bytes of a text, each [%] followed by two
    hexadecimal digits standing for one byte. *)
Fixpoint percentDecode (s : string) : string :=
  match s with
  | EmptyString => EmptyString
  | String c s' =>
      let plain := String c (percentDecode s') in
      if (c =? "%")%char then
        match s' with
        | String h (String l s'') =>
            match hexValue h, hexValue l with
            | Some a, Some b =>
                String (ascii_of_nat (16 * a + b)) (percentDecode s'')
            | _, _ => plain
            end
        | _ => plain
        end
      else plain
  end.

(** *** UTF-8 decoding

    The decoder of the Encoding standard, its output written in UTF-8
    again: a well-formed sequence is kept, and U+FFFD stands for every
    maximal ill-formed part. *)

(** U+FFFD, the replacement character. *)
Definition replacement : string :=
  String (ascii_of_nat 239) (String (ascii_of_nat 191)
    (String (ascii_of_nat 189) EmptyString)).

(** The bytes that still have to follow a first byte, and the bounds of
    the next one; [None] for a byte that begins no sequence. *)
Definition leadByte (c : ascii) : option (nat * nat * nat) :=
  let n := nat_of_ascii c in
  if inRange 194 223 c then Some (1, 128, 191)
  else if inRange 224 239 c
       then Some (2, if Nat.eqb n 224 then 160 else 128,
                     if Nat.eqb n 237 then 159 else 191)
  else if inRange 240 244 c
       then Some (3, if Nat.eqb n 240 then 144 else 128,
                     if Nat.eqb n 244 then 143 else 191)
  else None.

(** The decoder in the state where [needed] bytes are still to follow the
    bytes [seen], the next of them between [lower] and [upper]. *)
Fixpoint utf8DecodeFrom (needed lower upper : nat) (seen : string) (s : string)
  : string :=
  match s with
  | EmptyString =>
      match needed with 0 => EmptyString | S _ => replacement end
  | String c s' =>
      let fresh :=
        if isAscii c then String c (utf8DecodeFrom 0 128 191 EmptyString s')
        else match leadByte c with
             | Some (needed', lower', upper') =>
                 utf8DecodeFrom needed' lower' upper' (String c EmptyString) s'
             | None => replacement ++ utf8DecodeFrom 0 128 191 EmptyString s'
             end in
      match needed with
      | 0 => fresh
      | S rest =>
          if inRange lower upper c
          then match rest with
               | 0 => seen ++ String c (utf8DecodeFrom 0 128 191 EmptyString s')
               | S _ => utf8DecodeFrom rest 128 191 (seen ++ String c EmptyString) s'
               end
          else replacement ++ fresh
      end
  end.

(** UTF-8 decode without BOM. *)
Definition utf8Decode (s : string) : string :=
  utf8DecodeFrom 0 128 191 EmptyString s.

(** *** application/x-www-form-urlencoded *)

(** The sequences between the [&]s. *)
Fixpoint splitAmp (s : string) : list string :=
  match s with
  | EmptyString => [EmptyString]
  | String c s' =>
      if (c =? "&")%char then EmptyString :: splitAmp s'
      else match splitAmp s' with
           | first :: rest => String c first :: rest
           | [] => [String c EmptyString]
           end
  end.

Fixpoint plusToSpace (s : string) : string :=
  match s with
  | EmptyString => EmptyString
  | String c s' => String (if (c =? "+")%char then " "%char else c) (plusToSpace s')
  end.

(** A name or a value: [+] becomes a space, the text is percent-decoded,
    and the bytes are decoded as UTF-8. *)
Definition formDecode (s : string) : string :=
  utf8Decode (percentDecode (plusToSpace s)).

Definition pairOf (sequence : string) : string * string :=
  let (name, value) := cut "=" sequence in
  (formDecode name,
   formDecode (match value with Some v => v | None => EmptyString end)).

(** The application/x-www-form-urlencoded parser. *)
Definition parseUrlencoded (query : string) : URLSearchParams :=
  map pairOf (filter (fun q => negb (q =? EmptyString)) (splitAmp query)).

(** *** The authority *)

Definition backslash : ascii := ascii_of_nat 92.

(** [/], and for a special scheme the backslash too. *)
Definition isSlash (special : bool) (c : ascii) : bool :=
  (c =? "/")%char || (special && (c =? backslash)%char).

Definition isSpecial (scheme : string) : bool :=
  existsb (String.eqb scheme) ["ftp"; "file"; "http"; "https"; "ws"; "wss"].

Fixpoint skipSlashes (s : string) : string :=
  match s with
  | EmptyString => EmptyString
  | String c s' => if isSlash true c then skipSlashes s' else s
  end.

(** What is before the first slash. *)
Fixpoint upToSlash (special : bool) (s : string) : string :=
  match s with
  | EmptyString => EmptyString
  | String c s' => if isSlash special c then EmptyString else String c (upToSlash special s')
  end.

(** What follows the last [@]; [None] when there is none. *)
Fixpoint afterLastAt (s : string) : option string :=
  match s with
  | EmptyString => None
  | String c s' =>
      match afterLastAt s' with
      | Some t => Some t
      | None => if (c =? "@")%char then Some s' else None
      end
  end.

(** Host state: the host is read up to the first colon outside square
    brackets; what follows that colon is the port. *)
Fixpoint splitHostPort (insideBrackets : bool) (s : string) : string * option string :=
  match s with
  | EmptyString => (EmptyString, None)
  | String c s' =>
      if (c =? ":")%char && negb insideBrackets then (EmptyString, Some s')
      else
        let inside := if (c =? "[")%char then true
                      else if (c =? "]")%char then false else insideBrackets in
        let (host, port) := splitHostPort inside s' in (String c host, port)
  end.

(** The number written by digits in base [radix], after [acc]; [None]
    when a byte is not a digit of that base. *)
Fixpoint number (radix : N) (acc : N) (s : string) : option N :=
  match s with
  | EmptyString => Some acc
  | String c s' =>
      match hexValue c with
      | Some d => if N.ltb (N.of_nat d) radix
                  then number radix (acc * radix + N.of_nat d) s'
                  else None
      | None => None
      end
  end.

(** Port state: digits only, and at most 65535. *)
Definition validPort (s : string) : bool :=
  match number 10 0 s with
  | Some port => N.leb port 65535
  | None => false
  end.

(** The forbidden host code points. *)
Definition isForbiddenHost (c : ascii) : bool :=
  existsb (Nat.eqb (nat_of_ascii c))
    [0; 9; 10; 13; 32; 35; 47; 58; 60; 62; 63; 64; 91; 92; 93; 94; 124].

(** The forbidden domain code points. *)
Definition isForbiddenDomain (c : ascii) : bool :=
  isForbiddenHost c || Nat.leb (nat_of_ascii c) 31
  || Nat.eqb (nat_of_ascii c) 37 || Nat.eqb (nat_of_ascii c) 127.

(** The items between the dots. *)
Fixpoint splitDot (s : string) : list string :=
  match s with
  | EmptyString => [EmptyString]
  | String c s' =>
      if (c =? ".")%char then EmptyString :: splitDot s'
      else match splitDot s' with
           | first :: rest => String c first :: rest
           | [] => [String c EmptyString]
           end
  end.

(** The IPv4 number parser. *)
Definition ipv4Number (s : string) : option N :=
  match s with
  | EmptyString => None
  | String "0" (String x s') =>
      if (x =? "x")%char || (x =? "X")%char then number 16 0 s'
      else number 8 0 (String x s')
  | _ => number 10 0 s
  end.

(** The items of a host between its dots, a last empty item left out. *)
Definition hostParts (s : string) : list string :=
  let parts := splitDot s in
  match rev parts with
  | EmptyString :: (item :: others) => rev (item :: others)
  | _ => parts
  end.

(** The ends-in-a-number checker. *)
Definition endsInNumber (s : string) : bool :=
  match rev (hostParts s) with
  | last :: _ =>
      (negb (last =? EmptyString) && allBytes isDigit last)
      || match ipv4Number last with Some _ => true | None => false end
  | [] => false
  end.

(** The IPv4 parser, as far as it fails or not. *)
Definition validIPv4 (s : string) : bool :=
  let parts := hostParts s in
  Nat.leb (List.length parts) 4
  && match rev (map ipv4Number parts) with
     | Some last :: others =>
         forallb (fun item => match item with
                              | Some n => N.leb n 255
                              | None => false
                              end) others
         && N.ltb last (256 ^ N.of_nat (5 - List.length parts))
     | _ => false
     end.

(** Up to [n] hexadecimal digits: how many were read, and what follows. *)
Fixpoint hexRun (n : nat) (s : string) : nat * string :=
  match n, s with
  | S n', String c s' =>
      match hexValue c with
      | Some _ => let (k, rest) := hexRun n' s' in (S k, rest)
      | None => (0, s)
      end
  | _, _ => (0, s)
  end.

(** One number of the IPv4 part of an IPv6 address: decimal digits, no
    zero before another digit, at most 255; gives what follows. *)
Fixpoint ipv4Piece (value : option nat) (s : string) : option string :=
  match s with
  | EmptyString => match value with Some _ => Some s | None => None end
  | String c s' =>
      if isDigit c
      then match value with
           | None => ipv4Piece (Some (nat_of_ascii c - 48)) s'
           | Some 0 => None
           | Some v =>
               let v' := v * 10 + (nat_of_ascii c - 48) in
               if Nat.ltb 255 v' then None else ipv4Piece (Some v') s'
           end
      else match value with Some _ => Some s | None => None end
  end.

(** The IPv4 part of an IPv6 address: four numbers, dots between them. *)
Fixpoint ipv4InIPv6 (fuel numbersSeen : nat) (s : string) : bool :=
  match fuel, s with
  | _, EmptyString => Nat.eqb numbersSeen 4
  | 0, _ => false
  | S fuel', String c s' =>
      let start :=
        match numbersSeen with
        | 0 => Some s
        | S _ => if (c =? ".")%char && Nat.ltb numbersSeen 4 then Some s' else None
        end in
      match start with
      | Some digits =>
          match ipv4Piece None digits with
          | Some rest => ipv4InIPv6 fuel' (S numbersSeen) rest
          | None => false
          end
      | None => false
      end
  end.

(** The pieces of an IPv6 address, from the piece [pieceIndex];
    [compress] says whether [::] has been read. *)
Fixpoint ipv6Pieces (fuel pieceIndex : nat) (compress : bool) (s : string) : bool :=
  match fuel, s with
  | _, EmptyString => compress || Nat.eqb pieceIndex 8
  | 0, _ => false
  | S fuel', String c s' =>
      if Nat.eqb pieceIndex 8 then false
      else if (c =? ":")%char
      then negb compress && ipv6Pieces fuel' (S pieceIndex) true s'
      else
        let (length, rest) := hexRun 4 s in
        match rest with
        | EmptyString => compress || Nat.eqb (S pieceIndex) 8
        | String c' rest' =>
            if (c' =? ".")%char
            then negb (Nat.eqb length 0) && Nat.leb pieceIndex 6
                 && ipv4InIPv6 5 0 s
                 && (compress || Nat.eqb (pieceIndex + 2) 8)
            else if (c' =? ":")%char
            then negb (rest' =? EmptyString)
                 && ipv6Pieces fuel' (S pieceIndex) compress rest'
            else false
        end
  end.

(** The IPv6 parser, as far as it fails or not. *)
Definition validIPv6 (s : string) : bool :=
  match s with
  | String ":" (String ":" s') => ipv6Pieces (S (String.length s)) 1 true s'
  | String ":" _ => false
  | _ => ipv6Pieces (S (String.length s)) 0 false s
  end.

(** [s] without its last byte, when that byte is [c]. *)
Fixpoint withoutLast (c : ascii) (s : string) : option string :=
  match s with
  | EmptyString => None
  | String x EmptyString => if (x =? c)%char then Some EmptyString else None
  | String x s' =>
      match withoutLast c s' with
      | Some t => Some (String x t)
      | None => None
      end
  end.

(** The host parser, as far as it fails or not.  A host in square
    brackets is an IPv6 address.  An opaque host, that of a scheme that is
    not special, has no forbidden host code point.  Any other host is a
    domain: percent-decoded, without a forbidden domain code point, and an
    IPv4 address when it ends in a number. *)
Definition validHost (isOpaque : bool) (host : string) : bool :=
  match host with
  | String "[" inside =>
      match withoutLast "]" inside with
      | Some address => validIPv6 address
      | None => false
      end
  | _ =>
      if isOpaque then negb (anyByte isForbiddenHost host)
      else
        let domain := percentDecode host in
        negb (domain =? EmptyString)
        && negb (anyByte isForbiddenDomain domain)
        && (if endsInNumber domain then validIPv4 domain else true)
  end.

(** A Windows drive letter: a letter, then [:] or [|]. *)
Definition isWindowsDriveLetter (s : string) : bool :=
  match s with
  | String letter (String mark EmptyString) =>
      isAlpha letter && ((mark =? ":")%char || (mark =? "|")%char)
  | _ => false
  end.

(** Authority state, host state and port state, as far as they fail or
    not: what follows the last [@] is the host and the port, and a host
    is required of a special scheme, before a port, and after an [@]. *)
Definition authorityState (special : bool) (s : string) : bool :=
  let authority := upToSlash special s in
  let hostAndPort := match afterLastAt authority with
                     | Some text => text
                     | None => authority
                     end in
  let (host, port) := splitHostPort false hostAndPort in
  match afterLastAt authority, port with
  | Some EmptyString, _ => false
  | _, Some digits =>
      negb (host =? EmptyString) && validHost (negb special) host && validPort digits
  | _, None =>
      (negb special || negb (host =? EmptyString)) && validHost (negb special) host
  end.

(** What follows the scheme, up to the query: whether its authority
    parses.  A special scheme has an authority behind any number of
    slashes; [file] has a host behind two slashes, and no port; any other
    scheme has an authority behind two slashes, and is without one
    otherwise. *)
Definition validAuthority (scheme : string) (beforeQuery : string) : bool :=
  if scheme =? "file"
  then match beforeQuery with
       | String a (String b rest) =>
           if isSlash true a && isSlash true b
           then let buffer := upToSlash true rest in
                isWindowsDriveLetter buffer || (buffer =? EmptyString)
                || validHost false buffer
           else true
       | _ => true
       end
  else if isSpecial scheme then authorityState true (skipSlashes beforeQuery)
  else match beforeQuery with
       | String "/" (String "/" rest) => authorityState false rest
       | _ => true
       end.

(** [new URL(url).searchParams]; [None] when the constructor throws. *)
Definition searchParams (url : string) : option URLSearchParams :=
  match schemeStartState (removeTabsAndNewlines (trimEnd (trimStart url))) with
  | Some (scheme, afterScheme) =>
      let (beforeQuery, query) := cut "?" (fst (cut "#" afterScheme)) in
      if validAuthority scheme beforeQuery
      then Some (parseUrlencoded (match query with
                                  | Some q => q
                                  | None => EmptyString
                                  end))
      else None
  | None => None
  end.

End WHATWG.

(** ** Requests, responses, events *)

Record Request : Type := {
  req_url : string;
  req_method : string;
  req_headers : list (string * string);
  req_body : option string
}.

(** A settled [Response]: [json] is what [response.json()] settles to, a
    value, or the rejection (a [SyntaxError] when the body is empty or is
    not JSON). *)
Record Response : Type := {
  ok : bool;
  statusText : string;
  json : thrown + js
}.

(** The calls a handler makes to the functions it is given: the
    loading-flag setter and the host's callbacks.  [OnError message] is
    [onError(new Error(message))]. *)
Inductive call : Type :=
| SetIsLoading (value : bool)
| OnSuccess (profileData : js)
| OnError (message : string)
| OnClose
| OnLogout.

Inductive event : Type :=
| Call (c : call)
| Fetch (request : Request).

Coercion Call : call >-> event.

(** The errors the language itself raises in the handshake. *)
Inductive fault : Type :=
| InvalidURL (input : string)
| ReadOfNullish (name : string)
| DestructureOfNullish (name : string)
| NoPrimitiveValue.

(** The surroundings of a run.  Every awaited promise is taken as settled:
    [fetch_settles] says how. *)
Record Env : Type := {
  (** [new URL(url).searchParams]; [None] when the constructor throws *)
  URL_searchParams : string -> option URLSearchParams;
  (** the message of the [TypeError] raised for a fault *)
  fault_message : fault -> string;
  (** what [fetch(request)] settles to: a rejection or a response *)
  fetch_settles : Request -> thrown + Response;
  (** how a call of a given function completes: [None] when it returns,
      [Some e] when it throws [e] *)
  call_outcome : call -> option thrown;
  (** [String.prototype.toLowerCase] outside ASCII: what it writes for the
      byte at a given index of a given text when that byte is not ASCII
      (for a character of several bytes, its lower case at its first byte
      and nothing at the others) *)
  lowercase_nonASCII : string -> nat -> string
}.

(** [s.toLowerCase()] *)
Definition toLowerCase (env : Env) (s : string) : string :=
  lowerFrom (lowercase_nonASCII env s) 0 s.

(** ** Runs

    A computation gives the events it causes, in order, and its
    completion: [inl e] when it throws [e], [inr a] when it yields [a]. *)
Definition M (A : Type) : Type := list event * (thrown + A).

Definition ret {A : Type} (a : A) : M A := ([], inr a).

Definition throw {A : Type} (e : thrown) : M A := ([], inl e).

Definition bind {A B : Type} (m : M A) (f : A -> M B) : M B :=
  match m with
  | (t, inl e) => (t, inl e)
  | (t, inr a) => let (t', r) := f a in ((t ++ t')%list, r)
  end.

(** [try { body } catch (error) { handler error }] *)
Definition try_catch {A : Type} (body : M A) (handler : thrown -> M A) : M A :=
  match body with
  | (t, inl e) => let (t', r) := handler e in ((t ++ t')%list, r)
  | (t, inr a) => (t, inr a)
  end.

(** [... finally { final }]: [final] runs however [m] completes, and a
    throw of [final] replaces the completion of [m]. *)
Definition finally {A : Type} (m : M A) (final : M unit) : M A :=
  let (t, r) := m in
  match final with
  | (t', inl e) => ((t ++ t')%list, inl e)
  | (t', inr _) => ((t ++ t')%list, r)
  end.

(** A call of an async function that is not awaited: what it does
    happens, the promise it returns is dropped. *)
Definition unawaited (m : M unit) : M unit := (fst m, inr tt).

Declare Scope run_scope.
Delimit Scope run_scope with run.
Notation "x <- m ;; k" := (bind m (fun x => k))
  (at level 61, m at next level, right associativity) : run_scope.
Notation "m ;; k" := (bind m (fun _ => k))
  (at level 61, right associativity) : run_scope.
Local Open Scope run_scope.

Definition events {A : Type} (m : M A) : list event := fst m.
Definition completion {A : Type} (m : M A) : thrown + A := snd m.

(** ** Constants *)

Module LINKEDIN_URLS.
Definition AUTHORIZATION := "https://www.linkedin.com/oauth/v2/authorization".
Definition ACCESS_TOKEN := "https://www.linkedin.com/oauth/v2/accessToken".
Definition USER_INFO := "https://api.linkedin.com/v2/userinfo".
Definition LOG_OUT := "https://www.linkedin.com/m/logout".
End LINKEDIN_URLS.

Definition NO_CODE := "Authentication failed. No authorization code found.".
Definition NO_ACCESS_TOKEN := "Authentication failed. No access token received.".
Definition NO_PROFILE := "Failed to parse profile data.".
Definition UNKNOWN_THROWN := "An unknown error occurred".
Definition NETWORK_ERROR := "Network error. Please check your internet connection.".
Definition UNKNOWN_ERROR := "Unknown error".

(** [getAuthorizationUrl] *)
Definition getAuthorizationUrl (clientId scope redirectUri : string) : string :=
  let params := [("response_type", "code"); ("client_id", clientId);
                 ("redirect_uri", redirectUri); ("scope", scope)] in
  LINKEDIN_URLS.AUTHORIZATION ++ "?" ++ URLSearchParams_toString params.

(** [HandleAuthCallbackParams] *)
Record HandleAuthCallbackParams : Type := {
  url : string;
  clientId : string;
  clientSecret : string;
  redirectUri : string;
  onSuccess : js -> M unit;
  onError : string -> M unit;
  setIsLoading : bool -> M unit
}.

(** A string-or-null [x] as a condition: the string when [x] is truthy
    (neither null nor empty). *)
Definition truthyString (x : option string) : option string :=
  match x with
  | Some s => if s =? EmptyString then None else Some s
  | None => None
  end.

(** [x || fallback] for a string-or-null [x] *)
Definition orElse (x : option string) (fallback : string) : string :=
  match truthyString x with
  | Some s => s
  | None => fallback
  end.

(** [error instanceof Error ? error.message : 'An unknown error occurred'] *)
Definition errorMessage (error : thrown) : string :=
  match error with
  | ErrorObj message => message
  | NonError => UNKNOWN_THROWN
  end.

(** The message the [catch] block hands to [onError]. *)
Definition surfaced (env : Env) (message : string) : string :=
  if includes (toLowerCase env message) "network request failed"
  then NETWORK_ERROR else message.

Section Handlers.

Variable env : Env.

(** A call of a function of the surroundings. *)
Definition invoke (c : call) : M unit :=
  ([Call c], match call_outcome env c with Some e => inl e | None => inr tt end).

(** [await fetch(url, init)] *)
Definition fetch (request : Request) : M Response :=
  ([Fetch request], fetch_settles env request).

(** [new URL(url).searchParams] *)
Definition new_URL_searchParams (u : string) : M URLSearchParams :=
  match URL_searchParams env u with
  | Some params => ret params
  | None => throw (ErrorObj (fault_message env (InvalidURL u)))
  end.

(** [await response.json()] *)
Definition await_json (response : Response) : M js := ([], json response).

(** [await response.json().catch(() => ({}))] *)
Definition await_json_or_empty (response : Response) : js :=
  match json response with
  | inl _ => JObject []
  | inr v => v
  end.

(** [v.name], which throws on null and undefined *)
Definition read (v : js) (name : string) : M js :=
  if nullish v then throw (ErrorObj (fault_message env (ReadOfNullish name)))
  else ret (property v name).

(** [const { name } = v] *)
Definition destructure (v : js) (name : string) : M js :=
  if nullish v then throw (ErrorObj (fault_message env (DestructureOfNullish name)))
  else ret (property v name).

Definition tokenRequest (authCode cId cSecret rUri : string) : Request :=
  let tokenParams := [("grant_type", "authorization_code"); ("code", authCode);
                      ("client_id", cId); ("client_secret", cSecret);
                      ("redirect_uri", rUri)] in
  {| req_url := LINKEDIN_URLS.ACCESS_TOKEN;
     req_method := "POST";
     req_headers := [("Content-Type", "application/x-www-form-urlencoded")];
     req_body := Some (URLSearchParams_toString tokenParams) |}.

(** The text of [v], as [new Error(v)] and a template literal take it;
    it throws when [v] has none. *)
Definition stringOf (v : js) : M string :=
  match toString v with
  | Some text => ret text
  | None => throw (ErrorObj (fault_message env NoPrimitiveValue))
  end.

(** The profile request, for the text of the access token. *)
Definition profileRequest (access_token : string) : Request :=
  {| req_url := LINKEDIN_URLS.USER_INFO;
     req_method := "GET";
     req_headers := [("Authorization", "Bearer " ++ access_token)];
     req_body := None |}.

(** The statements of the [try] block of [handleAuthCallback] before the
    call of [onSuccess]; they yield [profileData]. *)
Definition handshake (p : HandleAuthCallbackParams) : M js :=
  setIsLoading p true ;;
  params <- new_URL_searchParams (url p) ;;
  let authCode := get params "code" in
  let errorDescription := get params "error_description" in
  match truthyString errorDescription with
  | Some description => throw (ErrorObj description)
  | None => ret tt
  end ;;
  code <- match truthyString authCode with
          | None => throw (ErrorObj NO_CODE)
          | Some code => ret code
          end ;;
  tokenResponse <- fetch (tokenRequest code (clientId p) (clientSecret p) (redirectUri p)) ;;
  (if ok tokenResponse then ret tt
   else
     let errorData := await_json_or_empty tokenResponse in
     description <- read errorData "error_description" ;;
     message <- (if truthy description then stringOf description
                 else ret ("Failed to get access token: " ++ statusText tokenResponse)) ;;
     throw (ErrorObj message)) ;;
  tokenData <- await_json tokenResponse ;;
  access_token <- destructure tokenData "access_token" ;;
  (if truthy access_token then ret tt else throw (ErrorObj NO_ACCESS_TOKEN)) ;;
  bearer <- stringOf access_token ;;
  profileResponse <- fetch (profileRequest bearer) ;;
  (if ok profileResponse then ret tt
   else
     let errorData := await_json_or_empty profileResponse in
     message <- read errorData "message" ;;
     text <- (if truthy message then stringOf message
              else ret ("Failed to fetch profile: " ++ statusText profileResponse)) ;;
     throw (ErrorObj text)) ;;
  profileData <- await_json profileResponse ;;
  (if truthy profileData then ret tt else throw (ErrorObj NO_PROFILE)) ;;
  ret profileData.

(** The [catch] block of [handleAuthCallback]. *)
Definition handleAuthError (p : HandleAuthCallbackParams) (error : thrown) : M unit :=
  onError p (surfaced env (errorMessage error)).

(** The [try] block of [handleAuthCallback]. *)
Definition tryBlock (p : HandleAuthCallbackParams) : M unit :=
  profileData <- handshake p ;;
  onSuccess p profileData.

(** [handleAuthCallback] *)
Definition handleAuthCallback (p : HandleAuthCallbackParams) : M unit :=
  finally (try_catch (tryBlock p) (handleAuthError p)) (setIsLoading p false).

End Handlers.

(** [handleAuthCallback] as a host calls it: with its own [onSuccess] and
    [onError] and the setter of its loading flag. *)
Definition hostParams (env : Env) (u cId cSecret rUri : string)
  : HandleAuthCallbackParams :=
  {| url := u;
     clientId := cId;
     clientSecret := cSecret;
     redirectUri := rUri;
     onSuccess := fun profileData => invoke env (OnSuccess profileData);
     onError := fun message => invoke env (OnError message);
     setIsLoading := fun value => invoke env (SetIsLoading value) |}.

(** ** The classes of an intercepted navigation

    The three outcomes of the tests [handleNavigationStateChange] applies
    to the URL, in the order it applies them. *)
Inductive NavigationClass : Type :=
| RedirectSuccess
| RedirectError
| PassThrough.

Definition classify (rUri u : string) : NavigationClass :=
  if startsWith u rUri && includes u "code=" then RedirectSuccess
  else if includes u "error=" then RedirectError
  else PassThrough.

(** ** The component *)
Module LinkedInModal.

(** The props of [LinkedInModalProps] that are data, with their defaults
    filled in.  The callback props [onSuccess], [onError], [onClose] and
    [onLogout] are functions of the surroundings. *)
Record Props : Type := {
  isVisible : bool;
  clientId : string;
  clientSecret : string;
  scope : string;
  redirectUri : string;
  logout : bool;
  closeOnSuccess : bool
}.

Section Component.

Variable env : Env.
Variable props : Props.

(** The argument of [handleAuthCallback] in
    [handleNavigationStateChange]. *)
Definition authCallbackParams (u : string) : HandleAuthCallbackParams :=
  Build_HandleAuthCallbackParams u
    (clientId props) (clientSecret props) (redirectUri props)
    (fun data =>
       invoke env (OnSuccess data) ;;
       if closeOnSuccess props then invoke env OnClose else ret tt)
    (fun message => invoke env (OnError message))
    (fun value => invoke env (SetIsLoading value)).

(** [handleNavigationStateChange]: [true] lets the navigation proceed,
    [false] blocks it.  The handshake is started without being
    awaited; its events are listed where it is started. *)
Definition handleNavigationStateChange (u : string) : M bool :=
  if logout props then ret true
  else if startsWith u (redirectUri props) && includes u "code=" then
    unawaited (handleAuthCallback env (authCallbackParams u)) ;;
    ret false
  else if includes u "error=" then
    params <- new_URL_searchParams env u ;;
    let error := orElse (get params "error_description") UNKNOWN_ERROR in
    invoke env (OnError error) ;;
    invoke env OnClose ;;
    ret false
  else ret true.

(** [handleLogoutNavigation] *)
Definition handleLogoutNavigation (u : string) : M unit :=
  if includes u "/home" || includes u "/session_redirect" || includes u "login"
  then invoke env OnLogout ;; invoke env OnClose
  else ret tt.

End Component.

End LinkedInModal.

Import LinkedInModal (handleNavigationStateChange, handleLogoutNavigation, authCallbackParams).

(** ** Reading a run *)

(** The event is a request. *)
Definition isFetch (ev : event) : bool :=
  match ev with Fetch _ => true | _ => false end.

Definition isOutcomeCall (ev : event) : bool :=
  match ev with
  | Call (OnSuccess _) | Call (OnError _) => true
  | _ => false
  end.

(** How often [onSuccess] or [onError] is called in a run. *)
Definition outcomeCalls (t : list event) : nat := List.length (filter isOutcomeCall t).

(** The loading flag after a run that starts with the flag at [flag]. *)
Fixpoint loadingAfter (flag : bool) (t : list event) : bool :=
  match t with
  | [] => flag
  | Call (SetIsLoading value) :: t' => loadingAfter value t'
  | _ :: t' => loadingAfter flag t'
  end.

(** A computation that only sets the loading flag to [true] and sends
    requests. *)
Definition quiet {A : Type} (m : M A) : Prop :=
  Forall (fun ev => ev = Call (SetIsLoading true) \/ isFetch ev = true) (events m).

(** ** The words of the specification *)

(** [s] starts with [p]. *)
Definition StartsWith (s p : string) : Prop := exists rest, s = p ++ rest.

(** [s] contains the text [p]. *)
Definition Contains (s p : string) : Prop :=
  exists before after, s = before ++ p ++ after.





(** The URL has a query parameter called [name]. *)
Definition hasQueryParameter (env : Env) (u name : string) : Prop :=
  exists params value,
    URL_searchParams env u = Some params /\ get params name = Some value.

(** ** The surroundings of the test suite

    The engine's messages, the mocked [fetch] that answers the token
    endpoint and then the profile endpoint, and callbacks that return. *)

Definition engineMessage (f : fault) : string :=
  match f with
  | InvalidURL _ => "Invalid URL"
  | ReadOfNullish name =>
      "Cannot read properties of null (reading '" ++ name ++ "')"
  | DestructureOfNullish name =>
      "Cannot destructure property '" ++ name ++ "' of 'tokenData' as it is null."
  | NoPrimitiveValue => "Cannot convert object to primitive value"
  end.

(** The Kelvin sign, U+212A, in UTF-8. *)
Definition kelvinSign : string :=
  String (ascii_of_nat 226) (String (ascii_of_nat 132)
    (String (ascii_of_nat 170) EmptyString)).

(** Lower case outside ASCII, as far as the mocks go: the Kelvin sign
    becomes [k], written at its first byte; any other byte is kept. *)
Definition mockLowercase (s : string) (i : nat) : string :=
  if String.prefix kelvinSign (substring i 3 s) then "k"
  else if Nat.leb 1 i && String.prefix kelvinSign (substring (i - 1) 3 s)
  then EmptyString
  else if Nat.leb 2 i && String.prefix kelvinSign (substring (i - 2) 3 s)
  then EmptyString
  else substring i 1 s.

Definition mockTokenResponse : js :=
  JObject [("access_token", JString "test-access-token");
           ("expires_in", JNumber true "3600");
           ("scope", JString "email");
           ("token_type", JString "Bearer")].

Definition mockProfileResponse : js :=
  JObject [("sub", JString "12345");
           ("name", JString "Test User");
           ("given_name", JString "Test");
           ("family_name", JString "User");
           ("picture", JString "https://example.com/pic.jpg");
           ("locale", JObject [("country", JString "US"); ("language", JString "en")]);
           ("email", JString "test@example.com")].

Definition resolved (body : thrown + js) : thrown + Response :=
  inr {| ok := true; statusText := "OK"; json := body |}.

(** Surroundings with the reference URL parser, given answers of the two
    endpoints and given outcomes of the calls. *)
Definition mockEnv (token profile : thrown + Response)
    (outcome : call -> option thrown) : Env :=
  {| URL_searchParams := WHATWG.searchParams;
     fault_message := engineMessage;
     fetch_settles := fun request =>
       if req_url request =? LINKEDIN_URLS.ACCESS_TOKEN then token else profile;
     call_outcome := outcome;
     lowercase_nonASCII := mockLowercase |}.

Definition jestEnv : Env :=
  mockEnv (resolved (inr mockTokenResponse)) (resolved (inr mockProfileResponse))
          (fun _ => None).

Definition defaultProps : LinkedInModal.Props :=
  {| LinkedInModal.isVisible := true;
     LinkedInModal.clientId := "test-client-id";
     LinkedInModal.clientSecret := "test-client-secret";
     LinkedInModal.scope := "openid email profile";
     LinkedInModal.redirectUri := "https://test.com/callback";
     LinkedInModal.logout := false;
     LinkedInModal.closeOnSuccess := true |}.

(** Surroundings in which the profile endpoint answers 200 with an empty
    body: [json()] rejects with the parser's [SyntaxError]. *)
Definition emptyProfileBodyEnv : Env :=
  mockEnv (resolved (inr mockTokenResponse))
          (resolved (inl (ErrorObj "Unexpected end of JSON input")))
          (fun _ => None).

(** Surroundings without a network: [fetch] rejects. *)
Definition offlineEnv : Env :=
  mockEnv (inl (ErrorObj "Network request failed"))
          (inl (ErrorObj "Network request failed"))
          (fun _ => None).

(** Surroundings without a network, in which the rejection of [fetch]
    spells its message with the Kelvin sign for the letter k. *)
Definition kelvinOfflineEnv : Env :=
  mockEnv (inl (ErrorObj ("Networ" ++ kelvinSign ++ " request failed")))
          (inl (ErrorObj ("Networ" ++ kelvinSign ++ " request failed")))
          (fun _ => None).

(** Surroundings in which the host's [onSuccess] throws. *)
Definition throwingOnSuccessEnv : Env :=
  mockEnv (resolved (inr mockTokenResponse)) (resolved (inr mockProfileResponse))
          (fun c => match c with
                    | OnSuccess _ => Some (ErrorObj "render failed")
                    | _ => None
                    end).

(** Surroundings in which the profile endpoint answers 200 with the body
    [null]. *)
Definition nullProfileBodyEnv : Env :=
  mockEnv (resolved (inr mockTokenResponse)) (resolved (inr JNull)) (fun _ => None).

(** ** The handshake, case by case *)

(** The requests of a run, in order. *)
Definition requests (t : list event) : list Request :=
  flat_map (fun ev => match ev with Fetch request => [request] | Call _ => [] end) t.

(** What the handshake throws when an endpoint answers outside 2xx.  A
    body that is not JSON counts as the empty object.  A body that is JSON
    for [null] makes the read of the property [name] throw.  Otherwise the
    property is read: when it is truthy its text is the message, unless it
    has none, which throws; when it is not, the message is [fallback]
    followed by the status text. *)
Definition failureOf (env : Env) (response : Response) (name fallback : string)
  : thrown :=
  let errorData := await_json_or_empty response in
  if nullish errorData
  then ErrorObj (fault_message env (ReadOfNullish name))
  else if truthy (property errorData name)
       then match toString (property errorData name) with
            | Some text => ErrorObj text
            | None => ErrorObj (fault_message env NoPrimitiveValue)
            end
       else ErrorObj (fallback ++ statusText response).

(** The handshake as a decision table: for each way the surroundings
    answer, the events and the completion. *)
Definition handshakeTable (env : Env) (p : HandleAuthCallbackParams) : M js :=
  let start := Call (SetIsLoading true) in
  match call_outcome env (SetIsLoading true) with
  | Some e => ([start], inl e)
  | None =>
  match URL_searchParams env (url p) with
  | None => ([start], inl (ErrorObj (fault_message env (InvalidURL (url p)))))
  | Some params =>
  match truthyString (get params "error_description") with
  | Some description => ([start], inl (ErrorObj description))
  | None =>
  match truthyString (get params "code") with
  | None => ([start], inl (ErrorObj NO_CODE))
  | Some code =>
  let token := tokenRequest code (clientId p) (clientSecret p) (redirectUri p) in
  match fetch_settles env token with
  | inl e => ([start; Fetch token], inl e)
  | inr tokenResponse =>
  if negb (ok tokenResponse)
  then ([start; Fetch token],
        inl (failureOf env tokenResponse "error_description"
               "Failed to get access token: "))
  else
  match json tokenResponse with
  | inl e => ([start; Fetch token], inl e)
  | inr tokenData =>
  if nullish tokenData
  then ([start; Fetch token],
        inl (ErrorObj (fault_message env (DestructureOfNullish "access_token"))))
  else
  let access_token := property tokenData "access_token" in
  if negb (truthy access_token)
  then ([start; Fetch token], inl (ErrorObj NO_ACCESS_TOKEN))
  else
  match toString access_token with
  | None => ([start; Fetch token], inl (ErrorObj (fault_message env NoPrimitiveValue)))
  | Some bearer =>
  let profile := profileRequest bearer in
  match fetch_settles env profile with
  | inl e => ([start; Fetch token; Fetch profile], inl e)
  | inr profileResponse =>
  if negb (ok profileResponse)
  then ([start; Fetch token; Fetch profile],
        inl (failureOf env profileResponse "message" "Failed to fetch profile: "))
  else
  match json profileResponse with
  | inl e => ([start; Fetch token; Fetch profile], inl e)
  | inr profileData =>
      ([start; Fetch token; Fetch profile],
       if truthy profileData then inr profileData else inl (ErrorObj NO_PROFILE))
  end end end end end end end end end.

(** What follows the handshake in a run of [handleAuthCallback] started by
    the component. *)
Definition afterHandshake (env : Env) (props : LinkedInModal.Props)
    (result : thrown + js) : list event :=
  let failed (e : thrown) : list event :=
    [Call (OnError (surfaced env (errorMessage e))); Call (SetIsLoading false)] in
  match result with
  | inl e => failed e
  | inr profileData =>
      Call (OnSuccess profileData) ::
      match call_outcome env (OnSuccess profileData) with
      | Some e => failed e
      | None =>
          if LinkedInModal.closeOnSuccess props
          then Call OnClose ::
               match call_outcome env OnClose with
               | Some e => failed e
               | None => [Call (SetIsLoading false)]
               end
          else [Call (SetIsLoading false)]
      end
  end.

(** The callback URL passes the two guards of the handshake:
    it parses, its [error_description] is absent or empty, and [code] is
    its first [code] parameter, not empty. *)
Definition carriesCode (env : Env) (u code : string) : Prop :=
  exists params,
    URL_searchParams env u = Some params
    /\ truthyString (get params "error_description") = None
    /\ truthyString (get params "code") = Some code.

(** The token endpoint answers the exchange of [code] with 2xx and a JSON
    body whose [access_token] is truthy and has the text [access_token]. *)
Definition grantsToken (env : Env) (props : LinkedInModal.Props)
    (code : string) (access_token : string) : Prop :=
  exists tokenResponse tokenData,
    fetch_settles env
      (tokenRequest code (LinkedInModal.clientId props)
         (LinkedInModal.clientSecret props) (LinkedInModal.redirectUri props)) =
      inr tokenResponse
    /\ ok tokenResponse = true
    /\ json tokenResponse = inr tokenData
    /\ nullish tokenData = false
    /\ truthy (property tokenData "access_token") = true
    /\ toString (property tokenData "access_token") = Some access_token.

(** Surroundings in which the token endpoint refuses the code. *)
Definition refusedCodeEnv : Env :=
  mockEnv (inr {| ok := false; statusText := "Bad Request";
                  json := inr (JObject [("error", JString "invalid_request");
                                        ("error_description", JString "Unable to retrieve access token")]) |})
          (resolved (inr mockProfileResponse))
          (fun _ => None).

(** Surroundings in which the token endpoint answers 2xx without an
    access token. *)
Definition noAccessTokenEnv : Env :=
  mockEnv (resolved (inr (JObject [("expires_in", JNumber true "3600")])))
          (resolved (inr mockProfileResponse))
          (fun _ => None).

(** Surroundings in which the profile endpoint refuses the token. *)
Definition refusedTokenEnv : Env :=
  mockEnv (resolved (inr mockTokenResponse))
          (inr {| ok := false; statusText := "Unauthorized";
                  json := inr (JObject [("status", JNumber true "401");
                                        ("message", JString "Invalid access token")]) |})
          (fun _ => None).

(** A value read from JSON that has no text: an object whose own property
    [toString] is a number. *)
Definition textless : js := JObject [("toString", JNumber true "1")].

(** Surroundings in which the token endpoint refuses the code with the
    body [null]. *)
Definition nullRefusalEnv : Env :=
  mockEnv (inr {| ok := false; statusText := "Bad Request"; json := inr JNull |})
          (resolved (inr mockProfileResponse))
          (fun _ => None).

(** Surroundings in which the token endpoint refuses the code with a
    description that has no text. *)
Definition textlessRefusalEnv : Env :=
  mockEnv (inr {| ok := false; statusText := "Bad Request";
                  json := inr (JObject [("error_description", textless)]) |})
          (resolved (inr mockProfileResponse))
          (fun _ => None).

(** Surroundings in which the token endpoint answers 2xx with an access
    token that has no text. *)
Definition textlessTokenEnv : Env :=
  mockEnv (resolved (inr (JObject [("access_token", textless)])))
          (resolved (inr mockProfileResponse))
          (fun _ => None).

(** The props of the test suite, with [closeOnSuccess] turned off. *)
Definition keepOpenProps : LinkedInModal.Props :=
  {| LinkedInModal.isVisible := true;
     LinkedInModal.clientId := "test-client-id";
     LinkedInModal.clientSecret := "test-client-secret";
     LinkedInModal.scope := "openid email profile";
     LinkedInModal.redirectUri := "https://test.com/callback";
     LinkedInModal.logout := false;
     LinkedInModal.closeOnSuccess := false |}.

(** ** Texts of the serializer *)

(** The bytes the application/x-www-form-urlencoded serializer writes for
    a name or a value: letters, digits, [*], [-], [.], [_], [+] and the
    percent sign. *)
Definition isFormByte (c : ascii) : bool :=
  let n := nat_of_ascii c in
  (Nat.leb 48 n && Nat.leb n 57) || (Nat.leb 65 n && Nat.leb n 90)
  || (Nat.leb 97 n && Nat.leb n 122)
  || Nat.eqb n 42 || Nat.eqb n 45 || Nat.eqb n 46 || Nat.eqb n 95
  || Nat.eqb n 43 || Nat.eqb n 37.

(** The byte is not [sep]. *)
Definition isNot (sep : ascii) (c : ascii) : bool := negb (c =? sep)%char.

(** The bytes of a serialized parameter list: those of the names and the
    values, [=] and [&]. *)
Definition isQueryByte (c : ascii) : bool :=
  isFormByte c || (c =? "=")%char || (c =? "&")%char.

(** ** What the component renders

    The body of [LinkedInModal] outside its handlers: the effect that
    keeps the [authUrl] state, and the choice of what is returned.  Of the
    returned tree only the choices are kept: whether it is the
    missing-props message or the modal, whether the modal is visible,
    which of the two web views it holds and on which URL, and whether the
    loading overlay is shown; headers and styles are left out. *)

(** A string as a condition. *)
Definition nonEmpty (s : string) : bool := negb (s =? EmptyString).

(** The effect on [isVisible], [logout], [clientId], [scope] and
    [redirectUri]: the [authUrl] state once it has run. *)
Definition authUrlEffect (props : LinkedInModal.Props) (authUrl : string) : string :=
  if LinkedInModal.isVisible props && negb (LinkedInModal.logout props)
     && nonEmpty (LinkedInModal.clientId props)
     && nonEmpty (LinkedInModal.redirectUri props)
  then getAuthorizationUrl (LinkedInModal.clientId props) (LinkedInModal.scope props)
         (LinkedInModal.redirectUri props)
  else authUrl.

(** The two web views: the logout one reports committed navigations to
    [handleLogoutNavigation]; the login one asks
    [handleNavigationStateChange] before each navigation. *)
Inductive WebViewKind : Type :=
| LogoutView
| LoginView.

Inductive Screen : Type :=
| MissingProps
| Dialog (visible : bool) (kind : WebViewKind) (uri : string) (overlay : bool).

(** What the component returns, for the current props and state. *)
Definition render (props : LinkedInModal.Props) (authUrl : string) (isLoading : bool)
  : Screen :=
  if (negb (nonEmpty (LinkedInModal.clientId props))
      || negb (nonEmpty (LinkedInModal.redirectUri props))
      || negb (nonEmpty (LinkedInModal.clientSecret props)))
     && (negb (LinkedInModal.logout props) && LinkedInModal.isVisible props)
  then MissingProps
  else if LinkedInModal.logout props
       then Dialog (LinkedInModal.isVisible props) LogoutView LINKEDIN_URLS.LOG_OUT isLoading
       else Dialog (LinkedInModal.isVisible props) LoginView authUrl isLoading.

(** Surroundings in which the host's [onClose] throws. *)
Definition throwingOnCloseEnv : Env :=
  mockEnv (resolved (inr mockTokenResponse)) (resolved (inr mockProfileResponse))
          (fun c => match c with
                    | OnClose => Some (ErrorObj "navigator is gone")
                    | _ => None
                    end).

(** * Properties *)

(** ** Strings *)

Lemma prefix_StartsWith (p s : string) :
  String.prefix p s = true <-> StartsWith s p.
Proof.
  unfold StartsWith. revert s.
  induction p as [|c p IH]; intros s.
  - destruct s; simpl; split; intros _; eauto.
  - destruct s as [|d s]; simpl.
    + split; [discriminate | intros [rest H]; discriminate].
    + destruct (ascii_dec c d) as [->|Hcd].
      * rewrite IH. split; intros [rest H]; exists rest.
        -- now rewrite H.
        -- now inversion H.
      * split; [discriminate | intros [rest H]; inversion H; congruence].
Qed.

Lemma startsWith_StartsWith (s p : string) :
  startsWith s p = true <-> StartsWith s p.
Proof. apply prefix_StartsWith. Qed.

Lemma includes_Contains (s p : string) :
  includes s p = true <-> Contains s p.
Proof.
  unfold Contains.
  induction s as [|c s IH].
  - cbn [includes]. rewrite orb_false_r, prefix_StartsWith. unfold StartsWith.
    split.
    + intros [rest H]. exists EmptyString, rest. exact H.
    + intros [before [after H]]. destruct before; [|discriminate]. eauto.
  - cbn [includes]. rewrite orb_true_iff, prefix_StartsWith, IH. unfold StartsWith.
    split.
    + intros [[rest H] | [before [after H]]].
      * exists EmptyString, rest. exact H.
      * exists (String c before), after. simpl. now rewrite H.
    + intros [before [after H]]. destruct before as [|d before].
      * left. exists after. exact H.
      * right. exists before, after. now inversion H.
Qed.

Lemma append_assoc (a b c : string) : (a ++ b) ++ c = a ++ b ++ c.
Proof. induction a; simpl; congruence. Qed.

(** *** Lower case *)

Lemma lowerASCII_app (a b : string) :
  lowerASCII (a ++ b) = lowerASCII a ++ lowerASCII b.
Proof. induction a; simpl; congruence. Qed.




Lemma isUpper_bounds (c : ascii) :
  isUpper c = true <-> 65 <= nat_of_ascii c <= 90.
Proof.
  unfold isUpper. rewrite andb_true_iff, !Nat.leb_le. tauto.
Qed.


Lemma toLower_other (c : ascii) :
  ~ 65 <= nat_of_ascii c <= 90 -> toLower c = c.
Proof.
  intros H. unfold toLower. destruct (isUpper c) eqn:E; [|reflexivity].
  apply isUpper_bounds in E. contradiction.
Qed.






(** *** The normalised message *)





(** ** Runs *)

Lemma events_bind {A B : Type} (m : M A) (f : A -> M B) :
  events (bind m f) =
  (events m ++ match completion m with
               | inl _ => []
               | inr a => events (f a)
               end)%list.
Proof.
  destruct m as [t [e|a]]; simpl.
  - now rewrite app_nil_r.
  - now destruct (f a).
Qed.

Lemma completion_bind {A B : Type} (m : M A) (f : A -> M B) :
  completion (bind m f) =
  match completion m with
  | inl e => inl e
  | inr a => completion (f a)
  end.
Proof. destruct m as [t [e|a]]; simpl; [reflexivity | now destruct (f a)]. Qed.

Lemma events_try_catch {A : Type} (body : M A) (handler : thrown -> M A) :
  events (try_catch body handler) =
  (events body ++ match completion body with
                  | inl e => events (handler e)
                  | inr _ => []
                  end)%list.
Proof.
  destruct body as [t [e|a]]; simpl.
  - now destruct (handler e).
  - now rewrite app_nil_r.
Qed.

Lemma events_finally {A : Type} (m : M A) (final : M unit) :
  events (finally m final) = (events m ++ events final)%list.
Proof. destruct m as [t r], final as [t' [e|u]]; reflexivity. Qed.

Lemma loadingAfter_app (flag : bool) (t t' : list event) :
  loadingAfter flag (t ++ t') = loadingAfter (loadingAfter flag t) t'.
Proof.
  revert flag. induction t as [|[[]|] t IH]; intros flag; simpl; auto.
Qed.

Lemma outcomeCalls_app (t t' : list event) :
  outcomeCalls (t ++ t') = outcomeCalls t + outcomeCalls t'.
Proof. unfold outcomeCalls. now rewrite filter_app, length_app. Qed.

(** ** The handshake *)

Section HandshakeFacts.

Variable env : Env.

Lemma quiet_ret {A : Type} (a : A) : quiet (ret a).
Proof. constructor. Qed.

Lemma quiet_throw {A : Type} (e : thrown) : quiet (throw e : M A).
Proof. constructor. Qed.

Lemma quiet_bind {A B : Type} (m : M A) (f : A -> M B) :
  quiet m -> (forall a, quiet (f a)) -> quiet (bind m f).
Proof.
  unfold quiet. intros Hm Hf. rewrite events_bind. apply Forall_app. split; [exact Hm|].
  destruct (completion m); [constructor | apply Hf].
Qed.

Lemma quiet_fetch (request : Request) : quiet (fetch env request).
Proof. unfold quiet; simpl. constructor; [right; reflexivity | constructor]. Qed.

Lemma quiet_setIsLoading_true : quiet (invoke env (SetIsLoading true)).
Proof. unfold quiet; simpl. constructor; [left; reflexivity | constructor]. Qed.

Lemma quiet_new_URL_searchParams (u : string) : quiet (new_URL_searchParams env u).
Proof. unfold new_URL_searchParams. destruct (URL_searchParams env u); constructor. Qed.

Lemma quiet_await_json (response : Response) : quiet (await_json response).
Proof. constructor. Qed.

Lemma quiet_read (v : js) (name : string) : quiet (read env v name).
Proof. unfold read. destruct (nullish v); constructor. Qed.

Lemma quiet_destructure (v : js) (name : string) : quiet (destructure env v name).
Proof. unfold destructure. destruct (nullish v); constructor. Qed.

Lemma quiet_stringOf (v : js) : quiet (stringOf env v).
Proof. unfold stringOf. destruct (toString v); constructor. Qed.

Ltac quiet_steps :=
  repeat first
    [ apply quiet_ret | apply quiet_throw | apply quiet_fetch
    | apply quiet_stringOf
    | apply quiet_new_URL_searchParams | apply quiet_await_json
    | apply quiet_read | apply quiet_destructure
    | apply quiet_bind; [|intro]
    | match goal with
      | |- quiet (if ?b then _ else _) => destruct b
      | |- quiet (match ?x with _ => _ end) => destruct x
      end ].

(** Before [onSuccess] or [onError] is reached, the handshake only sets
    the loading flag and talks to the endpoints. *)
Lemma handshake_quiet (p : HandleAuthCallbackParams) :
  setIsLoading p true = invoke env (SetIsLoading true) ->
  quiet (handshake env p).
Proof.
  intros Hset. unfold handshake. rewrite Hset.
  apply quiet_bind; [apply quiet_setIsLoading_true | intro].
  quiet_steps.
Qed.

Lemma quiet_outcomeCalls {A : Type} (m : M A) :
  quiet m -> outcomeCalls (events m) = 0.
Proof.
  unfold quiet, outcomeCalls. induction 1 as [|ev t Hev _ IH]; [reflexivity|].
  simpl. destruct Hev as [-> | Hev]; [exact IH|].
  destruct ev; [discriminate | exact IH].
Qed.

Lemma quiet_no_call {A : Type} (m : M A) (c : call) :
  quiet m -> In (Call c) (events m) -> c = SetIsLoading true.
Proof.
  unfold quiet. rewrite Forall_forall. intros H Hin.
  destruct (H _ Hin) as [E | E]; [now inversion E | discriminate].
Qed.

(** The handshake starts by setting the loading flag. *)
Lemma handshake_starts (p : HandleAuthCallbackParams) :
  setIsLoading p true = invoke env (SetIsLoading true) ->
  exists rest, events (handshake env p) = Call (SetIsLoading true) :: rest.
Proof.
  intros Hset. unfold handshake. rewrite events_bind, Hset. simpl. eauto.
Qed.

Lemma handleAuthCallback_events (p : HandleAuthCallbackParams) :
  events (handleAuthCallback env p) =
  (events (tryBlock env p)
   ++ match completion (tryBlock env p) with
      | inl e => events (onError p (surfaced env (errorMessage e)))
      | inr _ => []
      end
   ++ events (setIsLoading p false))%list.
Proof.
  unfold handleAuthCallback. rewrite events_finally, events_try_catch.
  now rewrite <- app_assoc.
Qed.

(** A handshake that fails: the error reaches [onError], its message
    normalised, and the flag is cleared. *)
Lemma handleAuthCallback_failure (p : HandleAuthCallbackParams) (e : thrown) :
  completion (handshake env p) = inl e ->
  events (handleAuthCallback env p) =
  (events (handshake env p)
   ++ events (onError p (surfaced env (errorMessage e)))
   ++ events (setIsLoading p false))%list.
Proof.
  intros H. rewrite handleAuthCallback_events. unfold tryBlock.
  now rewrite events_bind, completion_bind, H, app_nil_r.
Qed.

(** A handshake that succeeds: [onSuccess] is called with the profile. *)
Lemma handleAuthCallback_success (p : HandleAuthCallbackParams) (profileData : js) :
  completion (handshake env p) = inr profileData ->
  events (handleAuthCallback env p) =
  (events (handshake env p)
   ++ events (onSuccess p profileData)
   ++ match completion (onSuccess p profileData) with
      | inl e => events (onError p (surfaced env (errorMessage e)))
      | inr _ => []
      end
   ++ events (setIsLoading p false))%list.
Proof.
  intros H. rewrite handleAuthCallback_events. unfold tryBlock.
  now rewrite events_bind, completion_bind, H, <- app_assoc.
Qed.

End HandshakeFacts.

(** ** The navigation intercept *)

Lemma classify_RedirectSuccess (rUri u : string) :
  classify rUri u = RedirectSuccess <->
  startsWith u rUri = true /\ includes u "code=" = true.
Proof.
  unfold classify. rewrite <- andb_true_iff.
  destruct (startsWith u rUri && includes u "code="); [tauto|].
  destruct (includes u "error="); split; intros H; discriminate.
Qed.

Lemma classify_RedirectError (rUri u : string) :
  classify rUri u = RedirectError <->
  startsWith u rUri && includes u "code=" = false /\ includes u "error=" = true.
Proof.
  unfold classify.
  destruct (startsWith u rUri && includes u "code=").
  - split; [discriminate | intros [H _]; discriminate].
  - destruct (includes u "error="); split; try tauto; try discriminate.
    intros [_ H]; discriminate.
Qed.

(** What the intercept does, by the class of the URL. *)
Lemma handleNavigationStateChange_classify
    (env : Env) (props : LinkedInModal.Props) (u : string) :
  LinkedInModal.logout props = false ->
  handleNavigationStateChange env props u =
  match classify (LinkedInModal.redirectUri props) u with
  | RedirectSuccess =>
      (events (handleAuthCallback env (authCallbackParams env props u)), inr false)
  | RedirectError =>
      params <- new_URL_searchParams env u ;;
      invoke env (OnError (orElse (get params "error_description") UNKNOWN_ERROR)) ;;
      invoke env OnClose ;;
      ret false
  | PassThrough => ret true
  end.
Proof.
  intros Hlogout. unfold handleNavigationStateChange, classify. rewrite Hlogout.
  destruct (startsWith u (LinkedInModal.redirectUri props) && includes u "code=").
  - unfold unawaited, bind, ret, events. simpl. now rewrite app_nil_r.
  - destruct (includes u "error="); reflexivity.
Qed.

(** In logout mode every navigation proceeds, whatever the URL. *)
Lemma handleNavigationStateChange_logout
    (env : Env) (props : LinkedInModal.Props) (u : string) :
  LinkedInModal.logout props = true ->
  handleNavigationStateChange env props u = ret true.
Proof. intros H. unfold handleNavigationStateChange. now rewrite H. Qed.

Lemma orElse_present (x : option string) (fallback value : string) :
  x = Some value -> value <> EmptyString -> orElse x fallback = value.
Proof.
  intros -> Hne. unfold orElse, truthyString.
  destruct (String.eqb_spec value EmptyString); [contradiction | reflexivity].
Qed.

Lemma orElse_absent (x : option string) (fallback : string) :
  x = None \/ x = Some EmptyString -> orElse x fallback = fallback.
Proof. intros [-> | ->]; reflexivity. Qed.

Lemma truthyString_Some (x : option string) (value : string) :
  truthyString x = Some value <-> x = Some value /\ value <> EmptyString.
Proof.
  unfold truthyString. destruct x as [s|].
  - destruct (String.eqb_spec s EmptyString) as [-> | Hne]; split.
    + discriminate.
    + intros [H Hne]. inversion H. congruence.
    + intros H. inversion H. subst. auto.
    + intros [H _]. exact H.
  - split; [discriminate | intros [H _]; discriminate].
Qed.

Lemma truthyString_None (x : option string) :
  truthyString x = None <-> x = None \/ x = Some EmptyString.
Proof.
  unfold truthyString. destruct x as [s|].
  - destruct (String.eqb_spec s EmptyString) as [-> | Hne]; split.
    + intros _. now right.
    + reflexivity.
    + discriminate.
    + intros [H | H]; [discriminate | inversion H; contradiction].
  - split; auto.
Qed.

(** The handshake up to its two guards, when the flag setter returns and
    the URL parses. *)
Lemma handshake_guards (env : Env) (p : HandleAuthCallbackParams)
    (params : URLSearchParams) :
  setIsLoading p true = invoke env (SetIsLoading true) ->
  call_outcome env (SetIsLoading true) = None ->
  URL_searchParams env (url p) = Some params ->
  handshake env p =
  match truthyString (get params "error_description") with
  | Some description => ([Call (SetIsLoading true)], inl (ErrorObj description))
  | None =>
      match truthyString (get params "code") with
      | None => ([Call (SetIsLoading true)], inl (ErrorObj NO_CODE))
      | Some code => handshake env p
      end
  end.
Proof.
  intros Hset Hreturns Hparams.
  destruct (truthyString (get params "error_description")) as [description|] eqn:Hdescription;
    [|destruct (truthyString (get params "code")) as [code|] eqn:Hcode; [reflexivity|]];
    unfold handshake, new_URL_searchParams;
    rewrite Hset, Hparams; unfold invoke; rewrite Hreturns; cbn [bind ret];
    rewrite Hdescription; try rewrite Hcode; reflexivity.
Qed.

(** C1, as the code has it.  Outside logout mode, an intercepted URL is
    classified RedirectSuccess exactly when it starts with [redirectUri]
    and the text [code=] occurs somewhere in it; for such a URL the
    intercept starts the handshake and blocks the navigation, and for no
    other URL is the handshake started.  A [code] parameter is not asked
    for: when such a URL parses and has neither a non-empty
    [error_description] nor a non-empty [code], the handshake that was
    started ends on its missing-code guard, without a request. *)
Theorem redirect_success_iff_prefix_and_code_text
    (env : Env) (props : LinkedInModal.Props) (u : string) :
  LinkedInModal.logout props = false ->
  (classify (LinkedInModal.redirectUri props) u = RedirectSuccess <->
   StartsWith u (LinkedInModal.redirectUri props) /\ Contains u "code=")
  /\ (classify (LinkedInModal.redirectUri props) u = RedirectSuccess ->
      handleNavigationStateChange env props u =
      (events (handleAuthCallback env (authCallbackParams env props u)), inr false))
  /\ (classify (LinkedInModal.redirectUri props) u <> RedirectSuccess ->
      ~ In (Call (SetIsLoading true))
           (events (handleNavigationStateChange env props u)))
  /\ (forall params,
        classify (LinkedInModal.redirectUri props) u = RedirectSuccess ->
        call_outcome env (SetIsLoading true) = None ->
        URL_searchParams env u = Some params ->
        get params "error_description" = None
        \/ get params "error_description" = Some EmptyString ->
        get params "code" = None \/ get params "code" = Some EmptyString ->
        handleNavigationStateChange env props u =
        ([Call (SetIsLoading true); Call (OnError NO_CODE);
          Call (SetIsLoading false)],
         inr false)).
Proof.
  intros Hlogout. split; [|split; [|split]].
  - now rewrite classify_RedirectSuccess, startsWith_StartsWith, includes_Contains.
  - intros H. now rewrite handleNavigationStateChange_classify, H.
  - intros H. rewrite handleNavigationStateChange_classify by assumption.
    destruct (classify (LinkedInModal.redirectUri props) u); [congruence | | simpl; tauto].
    unfold new_URL_searchParams, invoke, bind, ret, throw, events.
    destruct (URL_searchParams env u) as [params|]; simpl; [|tauto].
    destruct (call_outcome env (OnError _)); simpl.
    + intros [E | []]. discriminate.
    + destruct (call_outcome env OnClose); simpl;
        intros [E | [E | []]]; discriminate.
  - intros params Hclass Hreturns Hparams Hdescription Hcode.
    rewrite handleNavigationStateChange_classify, Hclass by assumption.
    assert (Hguards := handshake_guards env (authCallbackParams env props u) params
                         eq_refl Hreturns Hparams).
    apply truthyString_None in Hdescription, Hcode.
    rewrite Hdescription, Hcode in Hguards.
    assert (Hfails : completion (handshake env (authCallbackParams env props u)) =
                     inl (ErrorObj NO_CODE)) by now rewrite Hguards.
    rewrite (handleAuthCallback_failure env _ _ Hfails), Hguards. reflexivity.
Qed.

(** The props of the test suite are outside logout mode; at the URL of
    its successful run the intercept starts the handshake and blocks. *)
Lemma redirect_success_iff_prefix_and_code_text_witness :
  LinkedInModal.logout defaultProps = false
  /\ handleNavigationStateChange jestEnv defaultProps
       "https://test.com/callback?code=test-auth-code" =
     (events (handleAuthCallback jestEnv
                (authCallbackParams jestEnv defaultProps
                   "https://test.com/callback?code=test-auth-code")),
      inr false).
Proof.
  split; [reflexivity|].
  apply (redirect_success_iff_prefix_and_code_text jestEnv defaultProps
           "https://test.com/callback?code=test-auth-code" eq_refl).
  reflexivity.
Defined.

(** C1, as it is stated, fails: a URL that starts with [redirectUri] and
    has the text [code=] only inside the name of another parameter has no
    [code] query parameter, and yet is classified RedirectSuccess; the
    handshake is started and ends on its missing-code guard. *)
Lemma code_text_in_another_parameter_is_redirect_success :
  let u := "https://test.com/callback?error_code=5" in
  startsWith u (LinkedInModal.redirectUri defaultProps) = true
  /\ WHATWG.searchParams u = Some [("error_code", "5")]
  /\ ~ hasQueryParameter jestEnv u "code"
  /\ classify (LinkedInModal.redirectUri defaultProps) u = RedirectSuccess
  /\ handleNavigationStateChange jestEnv defaultProps u =
     ([Call (SetIsLoading true); Call (OnError NO_CODE); Call (SetIsLoading false)],
      inr false).
Proof.
  repeat split; try reflexivity.
  intros [params [value [Hparams Hget]]].
  vm_compute in Hparams. inversion Hparams; subst. discriminate.
Qed.

(** The missing-code guard is not the only end of such a handshake: a
    non-empty [error_description] beside the text [code=] is reported
    first. *)
Example code_text_beside_an_error_description :
  let u := "https://test.com/callback?error_description=User+denied&state=code=1" in
  ~ hasQueryParameter jestEnv u "code"
  /\ classify (LinkedInModal.redirectUri defaultProps) u = RedirectSuccess
  /\ handleNavigationStateChange jestEnv defaultProps u =
     ([Call (SetIsLoading true); Call (OnError "User denied"); Call (SetIsLoading false)],
      inr false).
Proof.
  repeat split; try reflexivity.
  intros [params [value [Hparams Hget]]].
  vm_compute in Hparams. inversion Hparams; subst. discriminate.
Qed.

(** In the other direction, a [code] parameter written without [=] does
    not make a URL RedirectSuccess. *)
Lemma code_parameter_without_equals_passes_through :
  let u := "https://test.com/callback?code" in
  hasQueryParameter jestEnv u "code"
  /\ classify (LinkedInModal.redirectUri defaultProps) u = PassThrough.
Proof.
  repeat split. exists [("code", EmptyString)], EmptyString. split; reflexivity.
Qed.

(** ** The guards on the callback URL *)

(** C2, as the code has it.  For a callback URL that parses, once the
    loading flag has been set: if the [error_description] parameter is
    present and not empty, the handshake fails with exactly that message,
    and [onError] receives it (normalised as every message is) without any
    request being sent; if it is absent or empty and the [code] parameter
    is absent or empty, the handshake fails with the fixed missing-code
    message, again without any request. *)
Theorem callback_url_guards
    (env : Env) (u cId cSecret rUri : string) (params : URLSearchParams) :
  call_outcome env (SetIsLoading true) = None ->
  URL_searchParams env u = Some params ->
  let p := hostParams env u cId cSecret rUri in
  (forall description,
      get params "error_description" = Some description ->
      description <> EmptyString ->
      completion (handshake env p) = inl (ErrorObj description)
      /\ events (handleAuthCallback env p) =
         [Call (SetIsLoading true); Call (OnError (surfaced env description));
          Call (SetIsLoading false)])
  /\ (get params "error_description" = None
      \/ get params "error_description" = Some EmptyString ->
      get params "code" = None \/ get params "code" = Some EmptyString ->
      completion (handshake env p) = inl (ErrorObj NO_CODE)
      /\ events (handleAuthCallback env p) =
         [Call (SetIsLoading true); Call (OnError NO_CODE);
          Call (SetIsLoading false)]).
Proof.
  intros Hreturns Hparams p.
  assert (Hguards := handshake_guards env p params eq_refl Hreturns Hparams).
  split.
  - intros description Hget Hne.
    assert (Htruthy : truthyString (get params "error_description") = Some description)
      by (apply truthyString_Some; auto).
    rewrite Htruthy in Hguards.
    assert (Hfails : completion (handshake env p) = inl (ErrorObj description))
      by now rewrite Hguards.
    split; [exact Hfails|].
    rewrite (handleAuthCallback_failure env p _ Hfails), Hguards. reflexivity.
  - intros Hdescription Hcode.
    apply truthyString_None in Hdescription, Hcode.
    rewrite Hdescription, Hcode in Hguards.
    assert (Hfails : completion (handshake env p) = inl (ErrorObj NO_CODE))
      by now rewrite Hguards.
    split; [exact Hfails|].
    rewrite (handleAuthCallback_failure env p _ Hfails), Hguards. reflexivity.
Qed.

(** The denied-consent URL of the test suite, handed to the handshake:
    it parses, its [error_description] is not empty, and [onError]
    receives it. *)
Lemma callback_url_guards_witness :
  call_outcome jestEnv (SetIsLoading true) = None
  /\ URL_searchParams jestEnv
       "https://test.com/callback?error=access_denied&error_description=User+denied" =
     Some [("error", "access_denied"); ("error_description", "User denied")]
  /\ events (handleAuthCallback jestEnv
               (hostParams jestEnv
                  "https://test.com/callback?error=access_denied&error_description=User+denied"
                  "test-client-id" "test-client-secret" "https://test.com/callback")) =
     [Call (SetIsLoading true); Call (OnError "User denied"); Call (SetIsLoading false)].
Proof.
  split; [reflexivity | split; [reflexivity|]].
  refine (proj2 (proj1 (callback_url_guards jestEnv
            "https://test.com/callback?error=access_denied&error_description=User+denied"
            "test-client-id" "test-client-secret" "https://test.com/callback"
            _ eq_refl eq_refl) "User denied" eq_refl _)).
  discriminate.
Defined.

(** C2, as it is stated, fails: in this callback URL the
    [error_description] parameter is present, with the empty text as its
    value; the handshake does not stop there, and both endpoints are
    contacted. *)
Lemma empty_error_description_does_not_stop_the_handshake :
  let u := "https://test.com/callback?code=abc&error_description=" in
  let p := hostParams jestEnv u "test-client-id" "test-client-secret"
             "https://test.com/callback" in
  URL_searchParams jestEnv u = Some [("code", "abc"); ("error_description", EmptyString)]
  /\ hasQueryParameter jestEnv u "error_description"
  /\ events (handleAuthCallback jestEnv p) =
     [Call (SetIsLoading true);
      Fetch (tokenRequest "abc" "test-client-id" "test-client-secret"
               "https://test.com/callback");
      Fetch (profileRequest "test-access-token");
      Call (OnSuccess mockProfileResponse);
      Call (SetIsLoading false)].
Proof.
  repeat split. exists [("code", "abc"); ("error_description", EmptyString)], EmptyString.
  split; reflexivity.
Qed.

(** ** The loading flag *)

(** C3.  Whatever the URL, the endpoints and the callbacks do, also when
    one of them throws, a run of [handleAuthCallback] begins by setting
    the loading flag to [true] and ends by setting it to [false]; the flag
    is [false] after the run. *)
Theorem loading_flag_set_then_cleared
    (env : Env) (u cId cSecret rUri : string)
    (onSuccess' : js -> M unit) (onError' : string -> M unit) (flag : bool) :
  let p := Build_HandleAuthCallbackParams u cId cSecret rUri onSuccess' onError'
             (fun value => invoke env (SetIsLoading value)) in
  (exists between,
      events (handleAuthCallback env p) =
      Call (SetIsLoading true) :: between ++ [Call (SetIsLoading false)])
  /\ loadingAfter flag (events (handleAuthCallback env p)) = false.
Proof.
  intros p.
  assert (Hshape : exists between,
             events (handleAuthCallback env p) =
             Call (SetIsLoading true) :: between ++ [Call (SetIsLoading false)]).
  { rewrite handleAuthCallback_events. unfold tryBlock. rewrite events_bind.
    destruct (handshake_starts env p eq_refl) as [rest ->].
    eexists. cbn [setIsLoading p invoke events fst].
    rewrite !app_assoc. rewrite <- app_comm_cons. reflexivity. }
  split; [exact Hshape|].
  destruct Hshape as [between ->].
  rewrite app_comm_cons, loadingAfter_app. reflexivity.
Qed.

(** ** The messages handed to [onError] *)



(** The lower case of the Kelvin sign is the letter k: a rejection that
    spells 'Network request failed' with it is a network error too. *)
Example kelvin_sign_is_a_k :
  let p := hostParams kelvinOfflineEnv "https://test.com/callback?code=test-auth-code"
             "test-client-id" "test-client-secret" "https://test.com/callback" in
  completion (tryBlock kelvinOfflineEnv p) =
    inl (ErrorObj ("Networ" ++ kelvinSign ++ " request failed"))
  /\ toLowerCase kelvinOfflineEnv ("Networ" ++ kelvinSign ++ " request failed") =
     "network request failed"
  /\ events (handleAuthCallback kelvinOfflineEnv p) =
     [Call (SetIsLoading true);
      Fetch (tokenRequest "test-auth-code" "test-client-id" "test-client-secret"
               "https://test.com/callback");
      Call (OnError NETWORK_ERROR);
      Call (SetIsLoading false)].
Proof. repeat split. Qed.

(** ** Redirects that carry an error *)

(** C5, as the code has it.  Outside logout mode, for an intercepted URL
    in which the text [error=] occurs, that is not RedirectSuccess and
    that parses as a URL, with host callbacks that return: [onError] is
    called with the value of [error_description] when that parameter is
    present and not empty, and with 'Unknown error' when it is absent or
    empty; then [onClose] is called; nothing else happens, so no request
    is sent; and the navigation is blocked. *)
Theorem redirect_error_reports_then_closes
    (env : Env) (props : LinkedInModal.Props) (u : string)
    (params : URLSearchParams) :
  LinkedInModal.logout props = false ->
  classify (LinkedInModal.redirectUri props) u = RedirectError ->
  URL_searchParams env u = Some params ->
  call_outcome env
    (OnError (orElse (get params "error_description") UNKNOWN_ERROR)) = None ->
  call_outcome env OnClose = None ->
  handleNavigationStateChange env props u =
    ([Call (OnError (orElse (get params "error_description") UNKNOWN_ERROR));
      Call OnClose],
     inr false)
  /\ (forall description,
         get params "error_description" = Some description ->
         description <> EmptyString ->
         orElse (get params "error_description") UNKNOWN_ERROR = description)
  /\ (get params "error_description" = None
      \/ get params "error_description" = Some EmptyString ->
      orElse (get params "error_description") UNKNOWN_ERROR = "Unknown error").
Proof.
  intros Hlogout Hclass Hparams HonError HonClose. split; [|split].
  - rewrite handleNavigationStateChange_classify, Hclass by assumption.
    unfold new_URL_searchParams. rewrite Hparams. cbn [bind ret].
    unfold invoke. rewrite HonError, HonClose. reflexivity.
  - intros description Hget Hne. now apply orElse_present.
  - apply orElse_absent.
Qed.

(** The denied-consent run of the test suite: [onError], then
    [onClose], and the navigation is blocked. *)
Lemma redirect_error_reports_then_closes_witness :
  let u := "https://test.com/callback?error=access_denied&error_description=User+denied" in
  LinkedInModal.logout defaultProps = false
  /\ classify (LinkedInModal.redirectUri defaultProps) u = RedirectError
  /\ URL_searchParams jestEnv u =
     Some [("error", "access_denied"); ("error_description", "User denied")]
  /\ handleNavigationStateChange jestEnv defaultProps u =
     ([Call (OnError "User denied"); Call OnClose], inr false).
Proof.
  intros u. split; [reflexivity | split; [reflexivity | split; [reflexivity|]]].
  exact (proj1 (redirect_error_reports_then_closes jestEnv defaultProps u
                  [("error", "access_denied"); ("error_description", "User denied")]
                  eq_refl eq_refl eq_refl eq_refl eq_refl)).
Defined.

(** C5, as it is stated, fails.  The first URL is classified
    RedirectError, but it is not a URL the platform parses, so the
    intercept throws where it reads [error_description]: neither [onError]
    nor [onClose] is called and no decision is returned.  In the second
    URL the [error_description] parameter is present, with the empty text
    as its value, and [onError] receives the default message instead. *)
Lemma redirect_error_without_report :
  let u := "error=access_denied" in
  let u' := "https://test.com/callback?error=access_denied&error_description=" in
  (classify (LinkedInModal.redirectUri defaultProps) u = RedirectError
   /\ URL_searchParams jestEnv u = None
   /\ handleNavigationStateChange jestEnv defaultProps u =
      ([], inl (ErrorObj "Invalid URL")))
  /\ (classify (LinkedInModal.redirectUri defaultProps) u' = RedirectError
      /\ URL_searchParams jestEnv u' =
         Some [("error", "access_denied"); ("error_description", EmptyString)]
      /\ handleNavigationStateChange jestEnv defaultProps u' =
         ([Call (OnError "Unknown error"); Call OnClose], inr false)).
Proof. repeat split. Qed.

(** The test for RedirectError is a test on the text of the URL, as the
    test for RedirectSuccess is: an [error] parameter written without [=]
    lets the navigation proceed. *)
Lemma error_parameter_without_equals_passes_through :
  let u := "https://test.com/callback?error" in
  hasQueryParameter jestEnv u "error"
  /\ classify (LinkedInModal.redirectUri defaultProps) u = PassThrough
  /\ handleNavigationStateChange jestEnv defaultProps u = ([], inr true).
Proof.
  repeat split. exists [("error", EmptyString)], EmptyString. split; reflexivity.
Qed.

(** ** The profile body *)

(** The handshake once the profile endpoint has answered 2xx: a body that
    is not JSON makes [json()] reject, and the rejection is what the
    handshake throws; the fixed message is thrown for a body that is JSON
    for a falsy value. *)
Lemma handshake_profile_body
    (env : Env) (p : HandleAuthCallbackParams) (params : URLSearchParams)
    (code : string) (tokenResponse profileResponse : Response) (tokenData : js)
    (access_token : string) :
  setIsLoading p true = invoke env (SetIsLoading true) ->
  call_outcome env (SetIsLoading true) = None ->
  URL_searchParams env (url p) = Some params ->
  truthyString (get params "error_description") = None ->
  truthyString (get params "code") = Some code ->
  fetch_settles env (tokenRequest code (clientId p) (clientSecret p) (redirectUri p)) =
    inr tokenResponse ->
  ok tokenResponse = true ->
  json tokenResponse = inr tokenData ->
  nullish tokenData = false ->
  truthy (property tokenData "access_token") = true ->
  toString (property tokenData "access_token") = Some access_token ->
  fetch_settles env (profileRequest access_token) = inr profileResponse ->
  ok profileResponse = true ->
  handshake env p =
  ([Call (SetIsLoading true);
    Fetch (tokenRequest code (clientId p) (clientSecret p) (redirectUri p));
    Fetch (profileRequest access_token)],
   match json profileResponse with
   | inl e => inl e
   | inr profileData =>
       if truthy profileData then inr profileData else inl (ErrorObj NO_PROFILE)
   end).
Proof.
  intros Hset Hreturns Hparams Hdescription Hcode Htoken HtokenOk HtokenData
         Hobject Haccess Htext Hprofile HprofileOk.
  unfold handshake, new_URL_searchParams.
  rewrite Hset, Hparams. unfold invoke. rewrite Hreturns. cbn [bind ret].
  rewrite Hdescription, Hcode. cbn [bind ret app].
  unfold fetch. rewrite Htoken. cbn [bind]. rewrite HtokenOk. cbn [bind ret app].
  unfold await_json. rewrite HtokenData. cbn [bind].
  unfold destructure. rewrite Hobject. cbn [bind ret app]. rewrite Haccess.
  cbn [bind ret app]. unfold stringOf. rewrite Htext. cbn [bind ret app].
  rewrite Hprofile. cbn [bind]. rewrite HprofileOk.
  cbn [bind ret app].
  destruct (json profileResponse) as [e | profileData]; [reflexivity|].
  cbn [bind]. destruct (truthy profileData); reflexivity.
Qed.

(** C6 fails on the code.  With an empty body of a 200 answer of the
    profile endpoint, [json()] rejects, and [onError] receives the
    parser's message, not 'Failed to parse profile data.'. *)
Theorem empty_profile_body_reports_the_parser_message :
  let p := hostParams emptyProfileBodyEnv "https://test.com/callback?code=test-auth-code"
             "test-client-id" "test-client-secret" "https://test.com/callback" in
  fetch_settles emptyProfileBodyEnv (profileRequest "test-access-token") =
    inr {| ok := true; statusText := "OK";
           json := inl (ErrorObj "Unexpected end of JSON input") |}
  /\ events (handleAuthCallback emptyProfileBodyEnv p) =
     [Call (SetIsLoading true);
      Fetch (tokenRequest "test-auth-code" "test-client-id" "test-client-secret"
               "https://test.com/callback");
      Fetch (profileRequest "test-access-token");
      Call (OnError "Unexpected end of JSON input");
      Call (SetIsLoading false)]
  /\ "Unexpected end of JSON input" <> NO_PROFILE.
Proof. repeat split. discriminate. Qed.

(** The fixed message is what [onError] receives when the body is JSON
    for a falsy value, such as [null]. *)
Lemma null_profile_body_reports_NO_PROFILE :
  let p := hostParams nullProfileBodyEnv "https://test.com/callback?code=test-auth-code"
             "test-client-id" "test-client-secret" "https://test.com/callback" in
  events (handleAuthCallback nullProfileBodyEnv p) =
    [Call (SetIsLoading true);
     Fetch (tokenRequest "test-auth-code" "test-client-id" "test-client-secret"
              "https://test.com/callback");
     Fetch (profileRequest "test-access-token");
     Call (OnError "Failed to parse profile data.");
     Call (SetIsLoading false)].
Proof. reflexivity. Qed.

(** ** Success and failure of the handshake *)



(** The successful run of the test suite: the token endpoint, the profile
    endpoint, [onSuccess] with the profile, [onClose]. *)
Example successful_authentication_flow :
  handleNavigationStateChange jestEnv defaultProps
    "https://test.com/callback?code=test-auth-code" =
  ([Call (SetIsLoading true);
    Fetch (tokenRequest "test-auth-code" "test-client-id" "test-client-secret"
             "https://test.com/callback");
    Fetch (profileRequest "test-access-token");
    Call (OnSuccess mockProfileResponse);
    Call OnClose;
    Call (SetIsLoading false)],
   inr false).
Proof. reflexivity. Qed.

(** Without a network the handshake fails: [onError] only. *)
Example offline_authentication_flow :
  handleNavigationStateChange offlineEnv defaultProps
    "https://test.com/callback?code=test-auth-code" =
  ([Call (SetIsLoading true);
    Fetch (tokenRequest "test-auth-code" "test-client-id" "test-client-secret"
             "https://test.com/callback");
    Call (OnError NETWORK_ERROR);
    Call (SetIsLoading false)],
   inr false).
Proof. reflexivity. Qed.

(** The logout run of the test suite: a committed navigation to the login
    page calls [onLogout], then [onClose]. *)
Example logout_flow :
  handleLogoutNavigation jestEnv "https://www.linkedin.com/m/login" =
  ([Call OnLogout; Call OnClose], inr tt).
Proof. reflexivity. Qed.

(** The authorization URL of the test suite. *)
Example authorization_url :
  getAuthorizationUrl "test-client-id" "openid email profile" "https://test.com/callback" =
  "https://www.linkedin.com/oauth/v2/authorization?response_type=code&client_id=test-client-id&redirect_uri=https%3A%2F%2Ftest.com%2Fcallback&scope=openid+email+profile".
Proof. reflexivity. Qed.

(** C8.  A URL that passes the success test (it starts with
    [redirectUri] and carries [code=]) is RedirectSuccess also when it
    carries [error=]: the success test comes first, and the intercept
    starts the handshake instead of reporting the error. *)
Theorem success_check_precedes_error_check
    (env : Env) (props : LinkedInModal.Props) (u : string) :
  LinkedInModal.logout props = false ->
  startsWith u (LinkedInModal.redirectUri props) = true ->
  includes u "code=" = true ->
  includes u "error=" = true ->
  classify (LinkedInModal.redirectUri props) u = RedirectSuccess
  /\ handleNavigationStateChange env props u =
     (events (handleAuthCallback env (authCallbackParams env props u)), inr false).
Proof.
  intros Hlogout Hprefix Hcode _.
  assert (Hclass : classify (LinkedInModal.redirectUri props) u = RedirectSuccess)
    by (apply classify_RedirectSuccess; auto).
  split; [exact Hclass|].
  now rewrite handleNavigationStateChange_classify, Hclass.
Qed.

(** A URL that carries a code and an error is RedirectSuccess. *)
Lemma success_check_precedes_error_check_witness :
  let u := "https://test.com/callback?code=abc&error=access_denied" in
  LinkedInModal.logout defaultProps = false
  /\ startsWith u (LinkedInModal.redirectUri defaultProps) = true
  /\ includes u "code=" = true
  /\ includes u "error=" = true
  /\ classify (LinkedInModal.redirectUri defaultProps) u = RedirectSuccess.
Proof.
  intros u.
  split; [reflexivity | split; [reflexivity | split; [reflexivity | split; [reflexivity|]]]].
  exact (proj1 (success_check_precedes_error_check jestEnv defaultProps u
                  eq_refl eq_refl eq_refl eq_refl)).
Defined.

(** ** One outcome per handshake *)

(** Calls of [onSuccess] and [onError] in a run of [handleAuthCallback]
    with a host's own callbacks: one, as soon as [onSuccess] returns. *)
Lemma outcomeCalls_handleAuthCallback
    (env : Env) (u cId cSecret rUri : string) :
  (forall profileData, call_outcome env (OnSuccess profileData) = None) ->
  outcomeCalls (events (handleAuthCallback env (hostParams env u cId cSecret rUri))) = 1.
Proof.
  intros HonSuccess. set (p := hostParams env u cId cSecret rUri).
  assert (Hquiet : outcomeCalls (events (handshake env p)) = 0)
    by (apply quiet_outcomeCalls, handshake_quiet; reflexivity).
  destruct (completion (handshake env p)) as [e | profileData] eqn:Hcompletion.
  - rewrite (handleAuthCallback_failure env p e Hcompletion).
    rewrite !outcomeCalls_app, Hquiet. reflexivity.
  - rewrite (handleAuthCallback_success env p profileData Hcompletion).
    cbn [onSuccess p hostParams]. unfold invoke at 1 2. rewrite HonSuccess.
    rewrite !outcomeCalls_app, Hquiet. reflexivity.
Qed.

(** C9.  When the [onSuccess], the [onError] and the flag setter given to
    [handleAuthCallback] do not throw, a run calls [onSuccess] or
    [onError], one of the two and once. *)
Theorem exactly_one_outcome_call
    (env : Env) (u cId cSecret rUri : string) :
  (forall profileData, call_outcome env (OnSuccess profileData) = None) ->
  (forall message, call_outcome env (OnError message) = None) ->
  (forall value, call_outcome env (SetIsLoading value) = None) ->
  outcomeCalls (events (handleAuthCallback env (hostParams env u cId cSecret rUri))) = 1.
Proof.
  intros HonSuccess _ _. now apply outcomeCalls_handleAuthCallback.
Qed.

(** The callbacks of the test suite return; its successful run calls
    [onSuccess] once and [onError] never. *)
Lemma exactly_one_outcome_call_witness :
  (forall profileData, call_outcome jestEnv (OnSuccess profileData) = None)
  /\ (forall message, call_outcome jestEnv (OnError message) = None)
  /\ (forall value, call_outcome jestEnv (SetIsLoading value) = None)
  /\ outcomeCalls
       (events (handleAuthCallback jestEnv
                  (hostParams jestEnv "https://test.com/callback?code=test-auth-code"
                     "test-client-id" "test-client-secret"
                     "https://test.com/callback"))) = 1.
Proof.
  split; [reflexivity | split; [reflexivity | split; [reflexivity|]]].
  exact (exactly_one_outcome_call jestEnv
           "https://test.com/callback?code=test-auth-code"
           "test-client-id" "test-client-secret" "https://test.com/callback"
           (fun _ => eq_refl) (fun _ => eq_refl) (fun _ => eq_refl)).
Defined.

(** An [onSuccess] that throws is followed by a call of [onError]: the
    hypothesis on [onSuccess] cannot be dropped. *)
Lemma throwing_onSuccess_is_followed_by_onError :
  events (handleAuthCallback throwingOnSuccessEnv
            (hostParams throwingOnSuccessEnv
               "https://test.com/callback?code=test-auth-code"
               "test-client-id" "test-client-secret" "https://test.com/callback")) =
  [Call (SetIsLoading true);
   Fetch (tokenRequest "test-auth-code" "test-client-id" "test-client-secret"
            "https://test.com/callback");
   Fetch (profileRequest "test-access-token");
   Call (OnSuccess mockProfileResponse);
   Call (OnError "render failed");
   Call (SetIsLoading false)].
Proof. reflexivity. Qed.

(** ** URLs the platform does not parse *)

(** C10.  The intercept is not total in the URL: there is a URL that
    carries [error=], does not pass the success test and is not an
    absolute URL, on which the intercept throws, from the construction of
    the URL in its error branch, without calling anything and without a
    decision. *)
Theorem error_branch_throws_on_unparseable_url :
  exists u,
    includes u "error=" = true
    /\ includes u "code=" = false
    /\ WHATWG.searchParams u = None
    /\ forall (env : Env) (props : LinkedInModal.Props),
        LinkedInModal.logout props = false ->
        URL_searchParams env u = None ->
        handleNavigationStateChange env props u =
        ([], inl (ErrorObj (fault_message env (InvalidURL u)))).
Proof.
  exists "error=access_denied".
  split; [reflexivity | split; [reflexivity | split; [reflexivity|]]].
  intros env props Hlogout Hfails.
  unfold handleNavigationStateChange. rewrite Hlogout.
  replace (includes "error=access_denied" "code=") with false by reflexivity.
  rewrite andb_false_r.
  replace (includes "error=access_denied" "error=") with true by reflexivity.
  unfold new_URL_searchParams. rewrite Hfails. reflexivity.
Qed.

(** * Further properties *)

(** ** The handshake, case by case *)

(** [handshake] computes [handshakeTable]. *)
Lemma handshake_table (env : Env) (p : HandleAuthCallbackParams) :
  setIsLoading p true = invoke env (SetIsLoading true) ->
  handshake env p = handshakeTable env p.
Proof.
  intros Hset. unfold handshakeTable, handshake, failureOf, stringOf.
  rewrite Hset. unfold invoke.
  destruct (call_outcome env (SetIsLoading true)); [reflexivity|]. cbn [bind].
  unfold new_URL_searchParams.
  destruct (URL_searchParams env (url p)) as [params|]; [|reflexivity]. cbn [bind ret].
  destruct (truthyString (get params "error_description")); [reflexivity|]. cbn [bind ret].
  destruct (truthyString (get params "code")) as [code|]; [|reflexivity]. cbn [bind ret].
  unfold fetch.
  destruct (fetch_settles env (tokenRequest code (clientId p) (clientSecret p) (redirectUri p)))
    as [e | tokenResponse]; [reflexivity|]. cbn [bind].
  destruct (ok tokenResponse); cbn [negb bind ret].
  - unfold await_json. destruct (json tokenResponse) as [e | tokenData]; [reflexivity|].
    cbn [bind]. unfold destructure.
    destruct (nullish tokenData); [reflexivity|]. cbn [bind ret].
    destruct (truthy (property tokenData "access_token")); [|reflexivity]. cbn [negb bind ret].
    destruct (toString (property tokenData "access_token")) as [bearer|]; [|reflexivity].
    cbn [bind ret].
    destruct (fetch_settles env (profileRequest bearer))
      as [e | profileResponse]; [reflexivity|]. cbn [bind].
    destruct (ok profileResponse); cbn [negb bind ret].
    + destruct (json profileResponse) as [e | profileData]; [reflexivity|]. cbn [bind].
      destruct (truthy profileData); reflexivity.
    + unfold read. destruct (nullish (await_json_or_empty profileResponse));
        [reflexivity|]. cbn [bind ret].
      destruct (truthy (property (await_json_or_empty profileResponse) "message"));
        [|reflexivity].
      destruct (toString (property (await_json_or_empty profileResponse) "message"));
        reflexivity.
  - unfold read. destruct (nullish (await_json_or_empty tokenResponse));
      [reflexivity|]. cbn [bind ret].
    destruct (truthy (property (await_json_or_empty tokenResponse) "error_description"));
      [|reflexivity].
    destruct (toString (property (await_json_or_empty tokenResponse) "error_description"));
      reflexivity.
Qed.

Lemma requests_app (t t' : list event) :
  requests (t ++ t') = (requests t ++ requests t')%list.
Proof. apply flat_map_app. Qed.

Lemma completion_try_catch {A : Type} (body : M A) (handler : thrown -> M A) :
  completion (try_catch body handler) =
  match completion body with
  | inl e => completion (handler e)
  | inr a => inr a
  end.
Proof. destruct body as [t [e|a]]; simpl; [now destruct (handler e) | reflexivity]. Qed.

Lemma completion_finally {A : Type} (m : M A) (final : M unit) :
  completion (finally m final) =
  match completion final with
  | inl e => inl e
  | inr _ => completion m
  end.
Proof. destruct m as [t r], final as [t' [e|u]]; reflexivity. Qed.

(** A run of [handleAuthCallback] started by the component: the handshake,
    then what its result calls for. *)
Lemma component_run (env : Env) (props : LinkedInModal.Props) (u : string) :
  events (handleAuthCallback env (authCallbackParams env props u)) =
  (events (handshake env (authCallbackParams env props u))
   ++ afterHandshake env props
        (completion (handshake env (authCallbackParams env props u))))%list.
Proof.
  set (p := authCallbackParams env props u).
  destruct (completion (handshake env p)) as [e | profileData] eqn:Hcompletion.
  - now rewrite (handleAuthCallback_failure env p e Hcompletion).
  - rewrite (handleAuthCallback_success env p profileData Hcompletion).
    f_equal. cbn [onSuccess onError setIsLoading p authCallbackParams afterHandshake].
    unfold invoke.
    destruct (call_outcome env (OnSuccess profileData)); [reflexivity|].
    destruct (LinkedInModal.closeOnSuccess props); [|reflexivity].
    destruct (call_outcome env OnClose); reflexivity.
Qed.

Lemma afterHandshake_requests (env : Env) (props : LinkedInModal.Props)
    (result : thrown + js) :
  requests (afterHandshake env props result) = [].
Proof.
  unfold afterHandshake. destruct result as [e | profileData]; [reflexivity|].
  destruct (call_outcome env (OnSuccess profileData)); [reflexivity|].
  destruct (LinkedInModal.closeOnSuccess props); [|reflexivity].
  destruct (call_outcome env OnClose); reflexivity.
Qed.

(** X1.  The requests of a handshake started by the component: none; or
    the token request alone, carrying the first non-empty [code] of the
    URL; or the token request followed by the profile request, which bears
    the text of the truthy [access_token] of a 2xx token answer.  The
    profile endpoint is never contacted first, and nothing is requested
    twice. *)
Theorem requests_are_token_then_profile
    (env : Env) (props : LinkedInModal.Props) (u : string) :
  let sent := requests (events (handleAuthCallback env (authCallbackParams env props u))) in
  sent = []
  \/ exists params code,
      URL_searchParams env u = Some params
      /\ get params "code" = Some code /\ code <> EmptyString
      /\ let token := tokenRequest code (LinkedInModal.clientId props)
                        (LinkedInModal.clientSecret props)
                        (LinkedInModal.redirectUri props) in
         sent = [token]
         \/ exists tokenResponse tokenData access_token,
             fetch_settles env token = inr tokenResponse
             /\ ok tokenResponse = true
             /\ json tokenResponse = inr tokenData
             /\ truthy (property tokenData "access_token") = true
             /\ toString (property tokenData "access_token") = Some access_token
             /\ sent = [token; profileRequest access_token].
Proof.
  intros sent. subst sent.
  rewrite component_run, requests_app, afterHandshake_requests, app_nil_r.
  rewrite (handshake_table env (authCallbackParams env props u) eq_refl).
  unfold handshakeTable.
  cbn [url clientId clientSecret redirectUri authCallbackParams].
  destruct (call_outcome env (SetIsLoading true)); [now left|].
  destruct (URL_searchParams env u) as [params|]; [|now left].
  destruct (truthyString (get params "error_description")); [now left|].
  destruct (truthyString (get params "code")) as [code|] eqn:Hcode; [|now left].
  apply truthyString_Some in Hcode. destruct Hcode as [Hcode Hne].
  right. exists params, code. repeat split; try assumption.
  cbv zeta.
  destruct (fetch_settles env (tokenRequest code _ _ _)) as [e | tokenResponse] eqn:Htoken;
    [now left|].
  destruct (ok tokenResponse) eqn:Hok; [|now left]. cbn [negb].
  destruct (json tokenResponse) as [e | tokenData] eqn:Hjson; [now left|].
  destruct (nullish tokenData); [now left|].
  destruct (truthy (property tokenData "access_token")) eqn:Haccess; [|now left].
  cbn [negb].
  destruct (toString (property tokenData "access_token")) as [access_token|] eqn:Htext;
    [|now left].
  right. exists tokenResponse, tokenData, access_token. repeat split; try assumption.
  destruct (fetch_settles env (profileRequest _)) as [e | profileResponse]; [reflexivity|].
  destruct (ok profileResponse); cbn [negb]; [|reflexivity].
  destruct (json profileResponse); reflexivity.
Qed.

(** The handshake of the component up to the answer of the token
    endpoint. *)
Lemma handshake_at_token (env : Env) (props : LinkedInModal.Props) (u code : string) :
  call_outcome env (SetIsLoading true) = None ->
  carriesCode env u code ->
  handshake env (authCallbackParams env props u) =
  let start := Call (SetIsLoading true) in
  let token := tokenRequest code (LinkedInModal.clientId props)
                 (LinkedInModal.clientSecret props) (LinkedInModal.redirectUri props) in
  match fetch_settles env token with
  | inl e => ([start; Fetch token], inl e)
  | inr tokenResponse =>
      if negb (ok tokenResponse)
      then ([start; Fetch token],
            inl (failureOf env tokenResponse "error_description"
                   "Failed to get access token: "))
      else
        match json tokenResponse with
        | inl e => ([start; Fetch token], inl e)
        | inr tokenData =>
            if nullish tokenData
            then ([start; Fetch token],
                  inl (ErrorObj (fault_message env (DestructureOfNullish "access_token"))))
            else if negb (truthy (property tokenData "access_token"))
            then ([start; Fetch token], inl (ErrorObj NO_ACCESS_TOKEN))
            else handshake env (authCallbackParams env props u)
        end
  end.
Proof.
  intros Hreturns [params [Hparams [Hdescription Hcode]]].
  rewrite (handshake_table env (authCallbackParams env props u) eq_refl).
  unfold handshakeTable. cbn [url clientId clientSecret redirectUri authCallbackParams].
  rewrite Hreturns, Hparams, Hdescription, Hcode. cbv zeta.
  destruct (fetch_settles env (tokenRequest code _ _ _)) as [e | tokenResponse];
    [reflexivity|].
  destruct (ok tokenResponse); cbn [negb]; [|reflexivity].
  destruct (json tokenResponse) as [e | tokenData]; [reflexivity|].
  destruct (nullish tokenData); [reflexivity|].
  destruct (truthy (property tokenData "access_token")); reflexivity.
Qed.

(** The handshake of the component once the token is granted. *)
Lemma handshake_at_profile (env : Env) (props : LinkedInModal.Props)
    (u code : string) (access_token : string) :
  call_outcome env (SetIsLoading true) = None ->
  carriesCode env u code ->
  grantsToken env props code access_token ->
  handshake env (authCallbackParams env props u) =
  let sent := [Call (SetIsLoading true);
               Fetch (tokenRequest code (LinkedInModal.clientId props)
                        (LinkedInModal.clientSecret props)
                        (LinkedInModal.redirectUri props));
               Fetch (profileRequest access_token)] in
  match fetch_settles env (profileRequest access_token) with
  | inl e => (sent, inl e)
  | inr profileResponse =>
      if negb (ok profileResponse)
      then (sent, inl (failureOf env profileResponse "message" "Failed to fetch profile: "))
      else
        match json profileResponse with
        | inl e => (sent, inl e)
        | inr profileData =>
            (sent, if truthy profileData then inr profileData
                   else inl (ErrorObj NO_PROFILE))
        end
  end.
Proof.
  intros Hreturns [params [Hparams [Hdescription Hcode]]]
         [tokenResponse [tokenData [Htoken [Hok [Hjson [Hobject [Htruthy Htext]]]]]]].
  rewrite (handshake_table env (authCallbackParams env props u) eq_refl).
  unfold handshakeTable. cbn [url clientId clientSecret redirectUri authCallbackParams].
  rewrite Hreturns, Hparams, Hdescription, Hcode. cbv zeta.
  rewrite Htoken, Hok, Hjson, Hobject, Htruthy, Htext. reflexivity.
Qed.

(** ** What the endpoints answer *)

(** X2.  When the token endpoint answers the exchange outside 2xx, the
    run stops there: the profile endpoint is not contacted, and [onError]
    receives one message, normalised.  It is 'Failed to get access
    token: ' followed by the status text when the body is not JSON, and
    when it is JSON for a value other than [null] whose
    [error_description] is missing or falsy; the text of
    [error_description] when that is truthy and has a text; and the
    engine's [TypeError] message when the body is JSON for [null], or when
    [error_description] is truthy and has no text. *)
Theorem token_refusal_is_reported
    (env : Env) (props : LinkedInModal.Props) (u code : string)
    (tokenResponse : Response) :
  call_outcome env (SetIsLoading true) = None ->
  carriesCode env u code ->
  let token := tokenRequest code (LinkedInModal.clientId props)
                 (LinkedInModal.clientSecret props) (LinkedInModal.redirectUri props) in
  fetch_settles env token = inr tokenResponse ->
  ok tokenResponse = false ->
  let reported (message : string) : Prop :=
    events (handleAuthCallback env (authCallbackParams env props u)) =
    [Call (SetIsLoading true); Fetch token;
     Call (OnError (surfaced env message)); Call (SetIsLoading false)] in
  let fallback := "Failed to get access token: " ++ statusText tokenResponse in
  match json tokenResponse with
  | inl _ => reported fallback
  | inr body =>
      if nullish body
      then reported (fault_message env (ReadOfNullish "error_description"))
      else if truthy (property body "error_description")
           then match toString (property body "error_description") with
                | Some text => reported text
                | None => reported (fault_message env NoPrimitiveValue)
                end
           else reported fallback
  end.
Proof.
  intros Hreturns Hcode token Htoken Hok reported fallback.
  assert (Hrun : reported (errorMessage (failureOf env tokenResponse "error_description"
                                           "Failed to get access token: "))).
  { unfold reported.
    rewrite component_run, (handshake_at_token env props u code Hreturns Hcode).
    cbv zeta. fold token. rewrite Htoken, Hok. reflexivity. }
  unfold failureOf, await_json_or_empty in Hrun.
  destruct (json tokenResponse) as [e | body]; [exact Hrun|].
  destruct (nullish body); [exact Hrun|].
  destruct (truthy (property body "error_description")); [|exact Hrun].
  destruct (toString (property body "error_description")); exact Hrun.
Qed.

(** The token endpoint refuses the code of the test URL. *)
Lemma token_refusal_is_reported_witness :
  let u := "https://test.com/callback?code=test-auth-code" in
  let token := tokenRequest "test-auth-code" "test-client-id" "test-client-secret"
                 "https://test.com/callback" in
  call_outcome refusedCodeEnv (SetIsLoading true) = None
  /\ carriesCode refusedCodeEnv u "test-auth-code"
  /\ events (handleAuthCallback refusedCodeEnv
               (authCallbackParams refusedCodeEnv defaultProps u)) =
     [Call (SetIsLoading true); Fetch token;
      Call (OnError "Unable to retrieve access token"); Call (SetIsLoading false)].
Proof.
  intros u token.
  assert (Hcode : carriesCode refusedCodeEnv u "test-auth-code")
    by (exists [("code", "test-auth-code")]; repeat split).
  split; [reflexivity | split; [exact Hcode|]].
  exact (token_refusal_is_reported refusedCodeEnv defaultProps u "test-auth-code"
           _ eq_refl Hcode eq_refl eq_refl).
Defined.

(** A refusal whose body is [null]: the read of [error_description]
    throws, and [onError] receives the engine's message. *)
Example null_refusal_body_reports_the_engine_message :
  let u := "https://test.com/callback?code=test-auth-code" in
  handleAuthCallback nullRefusalEnv (authCallbackParams nullRefusalEnv defaultProps u) =
  ([Call (SetIsLoading true);
    Fetch (tokenRequest "test-auth-code" "test-client-id" "test-client-secret"
             "https://test.com/callback");
    Call (OnError "Cannot read properties of null (reading 'error_description')");
    Call (SetIsLoading false)],
   inr tt).
Proof. reflexivity. Qed.

(** A refusal whose description has no text: [new Error] throws, and
    [onError] receives the engine's message. *)
Example textless_description_reports_the_engine_message :
  let u := "https://test.com/callback?code=test-auth-code" in
  truthy textless = true
  /\ toString textless = None
  /\ handleAuthCallback textlessRefusalEnv
       (authCallbackParams textlessRefusalEnv defaultProps u) =
     ([Call (SetIsLoading true);
       Fetch (tokenRequest "test-auth-code" "test-client-id" "test-client-secret"
                "https://test.com/callback");
       Call (OnError "Cannot convert object to primitive value");
       Call (SetIsLoading false)],
      inr tt).
Proof. repeat split. Qed.

(** X3.  When the token endpoint answers 2xx with a JSON body that has no
    truthy [access_token], the run stops there: the profile endpoint is not
    contacted and [onError] receives 'Authentication failed. No access
    token received.'; when the body is JSON for [null], [onError] receives
    the engine's message for the failed destructuring instead. *)
Theorem token_answer_without_access_token
    (env : Env) (props : LinkedInModal.Props) (u code : string)
    (tokenResponse : Response) (tokenData : js) :
  call_outcome env (SetIsLoading true) = None ->
  carriesCode env u code ->
  let token := tokenRequest code (LinkedInModal.clientId props)
                 (LinkedInModal.clientSecret props) (LinkedInModal.redirectUri props) in
  fetch_settles env token = inr tokenResponse ->
  ok tokenResponse = true ->
  json tokenResponse = inr tokenData ->
  truthy (property tokenData "access_token") = false ->
  events (handleAuthCallback env (authCallbackParams env props u)) =
    [Call (SetIsLoading true); Fetch token;
     Call (OnError
             (if nullish tokenData
              then surfaced env (fault_message env (DestructureOfNullish "access_token"))
              else NO_ACCESS_TOKEN));
     Call (SetIsLoading false)].
Proof.
  intros Hreturns Hcode token Htoken Hok Hjson Hfalsy.
  rewrite component_run, (handshake_at_token env props u code Hreturns Hcode).
  cbv zeta. fold token. rewrite Htoken, Hok, Hjson, Hfalsy. cbn [negb].
  destruct (nullish tokenData); reflexivity.
Qed.

(** The token endpoint answers without an access token. *)
Lemma token_answer_without_access_token_witness :
  let u := "https://test.com/callback?code=test-auth-code" in
  let token := tokenRequest "test-auth-code" "test-client-id" "test-client-secret"
                 "https://test.com/callback" in
  call_outcome noAccessTokenEnv (SetIsLoading true) = None
  /\ carriesCode noAccessTokenEnv u "test-auth-code"
  /\ events (handleAuthCallback noAccessTokenEnv
               (authCallbackParams noAccessTokenEnv defaultProps u)) =
     [Call (SetIsLoading true); Fetch token;
      Call (OnError "Authentication failed. No access token received.");
      Call (SetIsLoading false)].
Proof.
  intros u token.
  assert (Hcode : carriesCode noAccessTokenEnv u "test-auth-code")
    by (exists [("code", "test-auth-code")]; repeat split).
  split; [reflexivity | split; [exact Hcode|]].
  exact (token_answer_without_access_token noAccessTokenEnv defaultProps u
           "test-auth-code" _ (JObject [("expires_in", JNumber true "3600")])
           eq_refl Hcode eq_refl eq_refl eq_refl eq_refl).
Defined.

(** X4.  When the profile endpoint answers outside 2xx, [onSuccess] is
    not called and [onError] receives one message, normalised.  It is
    'Failed to fetch profile: ' followed by the status text when the body
    is not JSON, and when it is JSON for a value other than [null] whose
    [message] is missing or falsy; the text of [message] when that is
    truthy and has a text; and the engine's [TypeError] message when the
    body is JSON for [null], or when [message] is truthy and has no
    text. *)
Theorem profile_refusal_is_reported
    (env : Env) (props : LinkedInModal.Props) (u code : string)
    (access_token : string) (profileResponse : Response) :
  call_outcome env (SetIsLoading true) = None ->
  carriesCode env u code ->
  grantsToken env props code access_token ->
  let token := tokenRequest code (LinkedInModal.clientId props)
                 (LinkedInModal.clientSecret props) (LinkedInModal.redirectUri props) in
  fetch_settles env (profileRequest access_token) = inr profileResponse ->
  ok profileResponse = false ->
  let reported (message : string) : Prop :=
    events (handleAuthCallback env (authCallbackParams env props u)) =
    [Call (SetIsLoading true); Fetch token; Fetch (profileRequest access_token);
     Call (OnError (surfaced env message)); Call (SetIsLoading false)] in
  let fallback := "Failed to fetch profile: " ++ statusText profileResponse in
  match json profileResponse with
  | inl _ => reported fallback
  | inr body =>
      if nullish body
      then reported (fault_message env (ReadOfNullish "message"))
      else if truthy (property body "message")
           then match toString (property body "message") with
                | Some text => reported text
                | None => reported (fault_message env NoPrimitiveValue)
                end
           else reported fallback
  end.
Proof.
  intros Hreturns Hcode Hgrant token Hprofile Hok reported fallback.
  assert (Hrun : reported (errorMessage (failureOf env profileResponse "message"
                                           "Failed to fetch profile: "))).
  { unfold reported.
    rewrite component_run,
      (handshake_at_profile env props u code access_token Hreturns Hcode Hgrant).
    cbv zeta. fold token. rewrite Hprofile, Hok. reflexivity. }
  unfold failureOf, await_json_or_empty in Hrun.
  destruct (json profileResponse) as [e | body]; [exact Hrun|].
  destruct (nullish body); [exact Hrun|].
  destruct (truthy (property body "message")); [|exact Hrun].
  destruct (toString (property body "message")); exact Hrun.
Qed.

(** The profile endpoint refuses the token of the test suite. *)
Lemma profile_refusal_is_reported_witness :
  let u := "https://test.com/callback?code=test-auth-code" in
  let token := tokenRequest "test-auth-code" "test-client-id" "test-client-secret"
                 "https://test.com/callback" in
  call_outcome refusedTokenEnv (SetIsLoading true) = None
  /\ carriesCode refusedTokenEnv u "test-auth-code"
  /\ grantsToken refusedTokenEnv defaultProps "test-auth-code" "test-access-token"
  /\ events (handleAuthCallback refusedTokenEnv
               (authCallbackParams refusedTokenEnv defaultProps u)) =
     [Call (SetIsLoading true); Fetch token;
      Fetch (profileRequest "test-access-token");
      Call (OnError "Invalid access token"); Call (SetIsLoading false)].
Proof.
  intros u token.
  assert (Hcode : carriesCode refusedTokenEnv u "test-auth-code")
    by (exists [("code", "test-auth-code")]; repeat split).
  assert (Hgrant : grantsToken refusedTokenEnv defaultProps "test-auth-code"
                     "test-access-token")
    by (eexists; exists mockTokenResponse; repeat split).
  split; [reflexivity | split; [exact Hcode | split; [exact Hgrant|]]].
  exact (profile_refusal_is_reported refusedTokenEnv defaultProps u
           "test-auth-code" "test-access-token" _
           eq_refl Hcode Hgrant eq_refl eq_refl).
Defined.

(** ** Success *)

(** X5.  When the URL carries a code, the token endpoint grants a token
    that has a text, and the profile endpoint, asked with that text as
    bearer, answers 2xx with a truthy JSON body, the run is: flag on,
    token request, profile request, [onSuccess] with that body, [onClose]
    when [closeOnSuccess] is set and only then, flag off; and the promise
    of the run is fulfilled. *)
Theorem successful_run
    (env : Env) (props : LinkedInModal.Props) (u code : string)
    (access_token : string) (profileResponse : Response) (profileData : js) :
  (forall c, call_outcome env c = None) ->
  carriesCode env u code ->
  grantsToken env props code access_token ->
  fetch_settles env (profileRequest access_token) = inr profileResponse ->
  ok profileResponse = true ->
  json profileResponse = inr profileData ->
  truthy profileData = true ->
  handleAuthCallback env (authCallbackParams env props u) =
  ([Call (SetIsLoading true);
    Fetch (tokenRequest code (LinkedInModal.clientId props)
             (LinkedInModal.clientSecret props) (LinkedInModal.redirectUri props));
    Fetch (profileRequest access_token);
    Call (OnSuccess profileData)]
   ++ (if LinkedInModal.closeOnSuccess props then [Call OnClose] else [])
   ++ [Call (SetIsLoading false)],
   inr tt)%list.
Proof.
  intros Hreturn Hcode Hgrant Hprofile Hok Hjson Htruthy.
  assert (Hhandshake := handshake_at_profile env props u code access_token
                          (Hreturn _) Hcode Hgrant).
  cbv zeta in Hhandshake. rewrite Hprofile, Hok, Hjson, Htruthy in Hhandshake.
  cbn [negb] in Hhandshake.
  unfold handleAuthCallback, tryBlock. rewrite Hhandshake.
  cbn [bind onSuccess onError setIsLoading authCallbackParams]. unfold invoke.
  rewrite !Hreturn. destruct (LinkedInModal.closeOnSuccess props); reflexivity.
Qed.

(** With [closeOnSuccess] turned off, the successful run of the test suite
    ends without [onClose]. *)
Lemma successful_run_witness :
  let u := "https://test.com/callback?code=test-auth-code" in
  (forall c, call_outcome jestEnv c = None)
  /\ carriesCode jestEnv u "test-auth-code"
  /\ grantsToken jestEnv keepOpenProps "test-auth-code" "test-access-token"
  /\ handleAuthCallback jestEnv (authCallbackParams jestEnv keepOpenProps u) =
     ([Call (SetIsLoading true);
       Fetch (tokenRequest "test-auth-code" "test-client-id" "test-client-secret"
                "https://test.com/callback");
       Fetch (profileRequest "test-access-token");
       Call (OnSuccess mockProfileResponse);
       Call (SetIsLoading false)],
      inr tt).
Proof.
  intros u.
  assert (Hcode : carriesCode jestEnv u "test-auth-code")
    by (exists [("code", "test-auth-code")]; repeat split).
  assert (Hgrant : grantsToken jestEnv keepOpenProps "test-auth-code"
                     "test-access-token")
    by (eexists; exists mockTokenResponse; repeat split).
  split; [intros c; reflexivity | split; [exact Hcode | split; [exact Hgrant|]]].
  exact (successful_run jestEnv keepOpenProps u "test-auth-code"
           "test-access-token" _ mockProfileResponse
           (fun _ => eq_refl) Hcode Hgrant eq_refl eq_refl eq_refl eq_refl).
Defined.

(** An access token that is truthy and has no text: the template literal
    of the [Authorization] header throws, the profile endpoint is not
    contacted and [onError] receives the engine's message. *)
Example textless_access_token_is_reported :
  let u := "https://test.com/callback?code=test-auth-code" in
  handleAuthCallback textlessTokenEnv (authCallbackParams textlessTokenEnv defaultProps u) =
  ([Call (SetIsLoading true);
    Fetch (tokenRequest "test-auth-code" "test-client-id" "test-client-secret"
             "https://test.com/callback");
    Call (OnError "Cannot convert object to primitive value");
    Call (SetIsLoading false)],
   inr tt).
Proof. reflexivity. Qed.

(** The handshake yields a profile only along one path of its table. *)
Lemma handshake_yields_inv (env : Env) (props : LinkedInModal.Props) (u : string)
    (profileData : js) :
  completion (handshake env (authCallbackParams env props u)) = inr profileData ->
  exists code access_token profileResponse,
    carriesCode env u code
    /\ grantsToken env props code access_token
    /\ fetch_settles env (profileRequest access_token) = inr profileResponse
    /\ ok profileResponse = true
    /\ json profileResponse = inr profileData
    /\ truthy profileData = true.
Proof.
  rewrite (handshake_table env (authCallbackParams env props u) eq_refl).
  unfold handshakeTable. cbn [url clientId clientSecret redirectUri authCallbackParams].
  destruct (call_outcome env (SetIsLoading true)); [discriminate|].
  destruct (URL_searchParams env u) as [params|] eqn:Hparams; [|discriminate].
  destruct (truthyString (get params "error_description")) eqn:Hdescription;
    [discriminate|].
  destruct (truthyString (get params "code")) as [code|] eqn:Hcode; [|discriminate].
  cbv zeta.
  destruct (fetch_settles env (tokenRequest code _ _ _)) as [e | tokenResponse] eqn:Htoken;
    [discriminate|].
  destruct (ok tokenResponse) eqn:Hok; cbn [negb]; [|discriminate].
  destruct (json tokenResponse) as [e | tokenData] eqn:Hjson; [discriminate|].
  destruct (nullish tokenData) eqn:Hobject; [discriminate|].
  destruct (truthy (property tokenData "access_token")) eqn:Haccess; cbn [negb];
    [|discriminate].
  destruct (toString (property tokenData "access_token")) as [access_token|] eqn:Htext;
    [|discriminate].
  destruct (fetch_settles env (profileRequest _)) as [e | profileResponse] eqn:Hprofile;
    [discriminate|].
  destruct (ok profileResponse) eqn:Hok'; cbn [negb]; [|discriminate].
  destruct (json profileResponse) as [e | profileData'] eqn:Hjson'; [discriminate|].
  destruct (truthy profileData') eqn:Htruthy; [|discriminate].
  cbn [completion snd]. intros H. inversion H. subst profileData'.
  exists code, access_token, profileResponse.
  split; [exists params; auto|].
  split; [exists tokenResponse, tokenData; auto 10|]. auto.
Qed.

Lemma afterHandshake_OnSuccess (env : Env) (props : LinkedInModal.Props)
    (result : thrown + js) (profileData : js) :
  In (Call (OnSuccess profileData)) (afterHandshake env props result) ->
  result = inr profileData.
Proof.
  unfold afterHandshake. destruct result as [e | profileData'].
  - intros [H | [H | []]]; discriminate.
  - intros [H | H]; [now inversion H|]. exfalso.
    destruct (call_outcome env (OnSuccess profileData')).
    + destruct H as [H | [H | []]]; discriminate.
    + destruct (LinkedInModal.closeOnSuccess props).
      * destruct H as [H | H]; [discriminate|].
        destruct (call_outcome env OnClose);
          [destruct H as [H | [H | []]] | destruct H as [H | []]]; discriminate.
      * destruct H as [H | []]; discriminate.
Qed.

(** X6.  [onSuccess] is called only with the truthy JSON body of a 2xx
    answer of the profile endpoint, itself asked with the access token of
    a 2xx answer of the token endpoint to the code of the URL: no other
    path of the run reaches [onSuccess]. *)
Theorem onSuccess_requires_both_answers
    (env : Env) (props : LinkedInModal.Props) (u : string) (profileData : js) :
  In (Call (OnSuccess profileData))
     (events (handleAuthCallback env (authCallbackParams env props u))) ->
  exists code access_token profileResponse,
    carriesCode env u code
    /\ grantsToken env props code access_token
    /\ fetch_settles env (profileRequest access_token) = inr profileResponse
    /\ ok profileResponse = true
    /\ json profileResponse = inr profileData
    /\ truthy profileData = true.
Proof.
  rewrite component_run. intros Hin. apply in_app_or in Hin.
  destruct Hin as [Hin | Hin].
  - apply (quiet_no_call (handshake env (authCallbackParams env props u))) in Hin;
      [discriminate | now apply handshake_quiet].
  - apply afterHandshake_OnSuccess in Hin. now apply handshake_yields_inv.
Qed.

(** In the successful run of the test suite [onSuccess] is called. *)
Lemma onSuccess_requires_both_answers_witness :
  let u := "https://test.com/callback?code=test-auth-code" in
  In (Call (OnSuccess mockProfileResponse))
     (events (handleAuthCallback jestEnv (authCallbackParams jestEnv defaultProps u)))
  /\ exists code access_token profileResponse,
      carriesCode jestEnv u code
      /\ grantsToken jestEnv defaultProps code access_token
      /\ fetch_settles jestEnv (profileRequest access_token) = inr profileResponse
      /\ ok profileResponse = true
      /\ json profileResponse = inr mockProfileResponse
      /\ truthy mockProfileResponse = true.
Proof.
  intros u.
  assert (Hin : In (Call (OnSuccess mockProfileResponse))
                   (events (handleAuthCallback jestEnv
                              (authCallbackParams jestEnv defaultProps u))))
    by (right; right; right; left; reflexivity).
  split; [exact Hin|].
  exact (onSuccess_requires_both_answers jestEnv defaultProps u mockProfileResponse Hin).
Defined.

(** X7.  With [closeOnSuccess] turned off, a handshake never calls
    [onClose], however it ends. *)
Theorem closeOnSuccess_false_never_closes
    (env : Env) (props : LinkedInModal.Props) (u : string) :
  LinkedInModal.closeOnSuccess props = false ->
  ~ In (Call OnClose)
       (events (handleAuthCallback env (authCallbackParams env props u))).
Proof.
  intros Hkeep. rewrite component_run. intros Hin. apply in_app_or in Hin.
  destruct Hin as [Hin | Hin].
  - apply (quiet_no_call (handshake env (authCallbackParams env props u))) in Hin;
      [discriminate | now apply handshake_quiet].
  - unfold afterHandshake in Hin. rewrite Hkeep in Hin.
    destruct (completion (handshake env (authCallbackParams env props u)))
      as [e | profileData].
    + destruct Hin as [H | [H | []]]; discriminate.
    + destruct Hin as [H | Hin]; [discriminate|].
      destruct (call_outcome env (OnSuccess profileData));
        [destruct Hin as [H | [H | []]] | destruct Hin as [H | []]]; discriminate.
Qed.

(** The props with [closeOnSuccess] turned off: no [onClose] in the
    successful run. *)
Lemma closeOnSuccess_false_never_closes_witness :
  LinkedInModal.closeOnSuccess keepOpenProps = false
  /\ ~ In (Call OnClose)
          (events (handleAuthCallback jestEnv
                     (authCallbackParams jestEnv keepOpenProps
                        "https://test.com/callback?code=test-auth-code"))).
Proof.
  split; [reflexivity|].
  exact (closeOnSuccess_false_never_closes jestEnv keepOpenProps
           "https://test.com/callback?code=test-auth-code" eq_refl).
Defined.

(** X8.  The promise of a handshake started by the component is
    fulfilled, whatever the URL and the endpoints do and even when the
    host's [onSuccess] or [onClose] throws, as soon as the host's
    [onError] and the flag setter return: the unawaited call leaves no
    rejection behind. *)
Theorem handshake_promise_is_fulfilled
    (env : Env) (props : LinkedInModal.Props) (u : string) :
  (forall message, call_outcome env (OnError message) = None) ->
  call_outcome env (SetIsLoading false) = None ->
  completion (handleAuthCallback env (authCallbackParams env props u)) = inr tt.
Proof.
  intros HonError Hsetter. unfold handleAuthCallback.
  rewrite completion_finally, completion_try_catch.
  cbn [setIsLoading authCallbackParams]. unfold invoke at 1.
  rewrite Hsetter. cbn [completion snd].
  destruct (completion (tryBlock env (authCallbackParams env props u))) as [e | []];
    [|reflexivity].
  unfold handleAuthError. cbn [onError authCallbackParams]. unfold invoke.
  now rewrite HonError.
Qed.

(** The callbacks of the surroundings in which [onSuccess] throws: the
    promise is fulfilled all the same. *)
Lemma handshake_promise_is_fulfilled_witness :
  (forall message, call_outcome throwingOnSuccessEnv (OnError message) = None)
  /\ call_outcome throwingOnSuccessEnv (SetIsLoading false) = None
  /\ completion (handleAuthCallback throwingOnSuccessEnv
                   (authCallbackParams throwingOnSuccessEnv defaultProps
                      "https://test.com/callback?code=test-auth-code")) = inr tt.
Proof.
  split; [intros message; reflexivity | split; [reflexivity|]].
  exact (handshake_promise_is_fulfilled throwingOnSuccessEnv defaultProps
           "https://test.com/callback?code=test-auth-code"
           (fun _ => eq_refl) eq_refl).
Defined.

(** ** The decision of the intercept *)

(** X9.  The intercept lets a navigation proceed exactly in logout mode
    and, outside it, for a URL that is neither RedirectSuccess nor
    RedirectError; and whenever it lets a navigation proceed it has called
    nothing: no callback, no request, no change of the loading flag. *)
Theorem navigation_proceeds_only_silently
    (env : Env) (props : LinkedInModal.Props) (u : string) :
  (completion (handleNavigationStateChange env props u) = inr true <->
   LinkedInModal.logout props = true
   \/ classify (LinkedInModal.redirectUri props) u = PassThrough)
  /\ (completion (handleNavigationStateChange env props u) = inr true ->
      events (handleNavigationStateChange env props u) = []).
Proof.
  destruct (LinkedInModal.logout props) eqn:Hlogout.
  - rewrite (handleNavigationStateChange_logout env props u Hlogout).
    split; [split; auto | reflexivity].
  - rewrite (handleNavigationStateChange_classify env props u Hlogout).
    destruct (classify (LinkedInModal.redirectUri props) u).
    + cbn [completion snd].
      split; [split; [discriminate | intros [H | H]; discriminate] | discriminate].
    + unfold new_URL_searchParams, invoke.
      destruct (URL_searchParams env u) as [params|]; cbn [bind ret throw completion snd].
      * destruct (call_outcome env (OnError _)); cbn [bind completion snd].
        -- split; [split; [discriminate | intros [H | H]; discriminate] | discriminate].
        -- destruct (call_outcome env OnClose); cbn [bind completion snd];
             (split; [split; [discriminate | intros [H | H]; discriminate] | discriminate]).
      * split; [split; [discriminate | intros [H | H]; discriminate] | discriminate].
    + split; [split; auto | reflexivity].
Qed.

(** X10.  A committed navigation in logout mode ends the logout exactly
    when its URL contains '/home', '/session_redirect' or 'login':
    [onLogout] is called, then [onClose] if [onLogout] returns; for any
    other URL nothing is called. *)
Theorem logout_navigation (env : Env) (u : string) :
  (Contains u "/home" \/ Contains u "/session_redirect" \/ Contains u "login" ->
   events (handleLogoutNavigation env u) =
   Call OnLogout :: match call_outcome env OnLogout with
                    | None => [Call OnClose]
                    | Some _ => []
                    end)
  /\ (~ (Contains u "/home" \/ Contains u "/session_redirect" \/ Contains u "login") ->
      handleLogoutNavigation env u = ([], inr tt)).
Proof.
  unfold handleLogoutNavigation.
  rewrite <- !includes_Contains.
  destruct (includes u "/home"), (includes u "/session_redirect"), (includes u "login");
    cbn [orb]; unfold invoke; split;
    try (intros _; destruct (call_outcome env OnLogout); cbn [bind events fst app];
         [reflexivity | now destruct (call_outcome env OnClose)]);
    try (intros H; exfalso; apply H; tauto);
    try (intros [H | [H | H]]; discriminate);
    try reflexivity.
Qed.

(** ** The serializer and the parser *)

Lemma allBytes_app (f : ascii -> bool) (s t : string) :
  allBytes f (s ++ t) = allBytes f s && allBytes f t.
Proof. induction s as [|c s IH]; simpl; [reflexivity | now rewrite IH, andb_assoc]. Qed.

Lemma allBytes_weaken (f g : ascii -> bool) (s : string) :
  (forall c, f c = true -> g c = true) ->
  allBytes f s = true -> allBytes g s = true.
Proof.
  intros Hfg. induction s as [|c s IH]; simpl; [reflexivity|].
  rewrite !andb_true_iff. intros [Hc Hs]. auto.
Qed.

Lemma urlencodeByte_isFormByte (c : ascii) :
  allBytes isFormByte (urlencodeByte c) = true.
Proof. destruct c as [[] [] [] [] [] [] [] []]; reflexivity. Qed.

Lemma urlencode_isFormByte (s : string) : allBytes isFormByte (urlencode s) = true.
Proof.
  induction s as [|c s IH]; simpl; [reflexivity|].
  now rewrite allBytes_app, urlencodeByte_isFormByte, IH.
Qed.

Lemma plusToSpace_app (s t : string) :
  WHATWG.plusToSpace (s ++ t) = WHATWG.plusToSpace s ++ WHATWG.plusToSpace t.
Proof. induction s as [|c s IH]; simpl; [reflexivity | now rewrite IH]. Qed.

Lemma percentDecode_urlencodeByte (c : ascii) (rest : string) :
  WHATWG.percentDecode (WHATWG.plusToSpace (urlencodeByte c) ++ rest) =
  String c (WHATWG.percentDecode rest).
Proof. destruct c as [[] [] [] [] [] [] [] []]; reflexivity. Qed.

(** Percent-decoding undoes the serializer, byte for byte. *)
Lemma percentDecode_urlencode (s : string) :
  WHATWG.percentDecode (WHATWG.plusToSpace (urlencode s)) = s.
Proof.
  induction s as [|c s IH]; [reflexivity|].
  cbn [urlencode]. now rewrite plusToSpace_app, percentDecode_urlencodeByte, IH.
Qed.

Lemma formDecode_urlencode (s : string) :
  WHATWG.formDecode (urlencode s) = WHATWG.utf8Decode s.
Proof. unfold WHATWG.formDecode. now rewrite percentDecode_urlencode. Qed.

Lemma utf8DecodeFrom_ascii (a : ascii) (s : string) :
  isAscii a = true ->
  WHATWG.utf8DecodeFrom 0 128 191 EmptyString (String a s) =
  String a (WHATWG.utf8DecodeFrom 0 128 191 EmptyString s).
Proof. intros Ha. cbn [WHATWG.utf8DecodeFrom]. now rewrite Ha. Qed.

Lemma utf8DecodeFrom_lead (a : ascii) (s : string) (needed lower upper : nat) :
  isAscii a = false ->
  WHATWG.leadByte a = Some (needed, lower, upper) ->
  WHATWG.utf8DecodeFrom 0 128 191 EmptyString (String a s) =
  WHATWG.utf8DecodeFrom needed lower upper (String a EmptyString) s.
Proof. intros Ha Hlead. cbn [WHATWG.utf8DecodeFrom]. now rewrite Ha, Hlead. Qed.

Lemma utf8DecodeFrom_last (lower upper : nat) (seen : string) (c : ascii) (s : string) :
  inRange lower upper c = true ->
  WHATWG.utf8DecodeFrom 1 lower upper seen (String c s) =
  seen ++ String c (WHATWG.utf8DecodeFrom 0 128 191 EmptyString s).
Proof. intros Hc. cbn [WHATWG.utf8DecodeFrom]. now rewrite Hc. Qed.

Lemma utf8DecodeFrom_next (needed lower upper : nat) (seen : string) (c : ascii)
    (s : string) :
  inRange lower upper c = true ->
  WHATWG.utf8DecodeFrom (S (S needed)) lower upper seen (String c s) =
  WHATWG.utf8DecodeFrom (S needed) 128 191 (seen ++ String c EmptyString) s.
Proof. intros Hc. cbn [WHATWG.utf8DecodeFrom]. now rewrite Hc. Qed.

Lemma utf8Decode_wellFormed_le (n : nat) :
  forall s, String.length s <= n -> wellFormedUTF8 s = true -> WHATWG.utf8Decode s = s.
Proof.
  unfold WHATWG.utf8Decode.
  induction n as [|n IH]; intros s Hlen Hwf.
  - destruct s; [reflexivity | simpl in Hlen; lia].
  - destruct s as [|a s1]; [reflexivity|].
    destruct a as [[] [] [] [] [] [] [] []]; simpl in Hwf;
      try (rewrite utf8DecodeFrom_ascii by reflexivity;
           f_equal; apply IH; [simpl in Hlen; lia | exact Hwf]).
    all: repeat match type of Hwf with
                | context [match ?t with EmptyString => _ | String _ _ => _ end] =>
                    destruct t; simpl in Hwf; try discriminate Hwf
                end.
    all: try discriminate Hwf.
    all: rewrite ?orb_false_r, ?andb_true_iff in Hwf.
    all: erewrite utf8DecodeFrom_lead by (vm_compute; reflexivity).
    all: repeat (rewrite utf8DecodeFrom_next by tauto).
    all: rewrite utf8DecodeFrom_last by tauto.
    all: cbn [append]; repeat f_equal; apply IH; [simpl in Hlen; lia | tauto].
Qed.

(** The decoder keeps a well-formed text as it is. *)
Lemma utf8Decode_wellFormed (s : string) :
  wellFormedUTF8 s = true -> WHATWG.utf8Decode s = s.
Proof. apply (utf8Decode_wellFormed_le (String.length s)). lia. Qed.

Lemma isFormByte_isNot (sep c : ascii) :
  In sep ["="; "&"; "#"; "?"]%char ->
  isFormByte c = true -> isNot sep c = true.
Proof.
  intros [<- | [<- | [<- | [<- | []]]]];
    destruct c as [[] [] [] [] [] [] [] []]; (reflexivity || discriminate).
Qed.

Lemma urlencode_isNot (sep : ascii) (s : string) :
  In sep ["="; "&"; "#"; "?"]%char ->
  allBytes (isNot sep) (urlencode s) = true.
Proof.
  intros Hsep. apply (allBytes_weaken isFormByte); [|apply urlencode_isFormByte].
  intros c. now apply isFormByte_isNot.
Qed.

Lemma cut_at (sep : ascii) (s t : string) :
  allBytes (isNot sep) s = true ->
  WHATWG.cut sep (s ++ String sep t) = (s, Some t).
Proof.
  induction s as [|c s IH]; simpl.
  - intros _. now rewrite Ascii.eqb_refl.
  - unfold isNot at 1. rewrite andb_true_iff, negb_true_iff. intros [Hc Hs].
    now rewrite Hc, (IH Hs).
Qed.

Lemma cut_absent (sep : ascii) (s : string) :
  allBytes (isNot sep) s = true ->
  WHATWG.cut sep s = (s, None).
Proof.
  induction s as [|c s IH]; simpl; [reflexivity|].
  unfold isNot at 1. rewrite andb_true_iff, negb_true_iff. intros [Hc Hs].
  now rewrite Hc, (IH Hs).
Qed.

Lemma splitAmp_absent (s : string) :
  allBytes (isNot "&") s = true ->
  WHATWG.splitAmp s = [s].
Proof.
  induction s as [|c s IH]; simpl; [reflexivity|].
  unfold isNot at 1. rewrite andb_true_iff, negb_true_iff. intros [Hc Hs].
  now rewrite Hc, (IH Hs).
Qed.

Lemma splitAmp_at (s t : string) :
  allBytes (isNot "&") s = true ->
  WHATWG.splitAmp (s ++ String "&" t) = s :: WHATWG.splitAmp t.
Proof.
  induction s as [|c s IH]; simpl; [reflexivity|].
  unfold isNot at 1. rewrite andb_true_iff, negb_true_iff. intros [Hc Hs].
  now rewrite Hc, (IH Hs).
Qed.

Lemma pair_isNot_amp (k v : string) :
  allBytes (isNot "&") (urlencode k ++ "=" ++ urlencode v) = true.
Proof.
  rewrite !allBytes_app, !urlencode_isNot by (simpl; auto). reflexivity.
Qed.

Lemma pair_not_empty (k v : string) :
  (urlencode k ++ "=" ++ urlencode v =? EmptyString) = false.
Proof. destruct (urlencode k); reflexivity. Qed.

Lemma pairOf_pair (k v : string) :
  WHATWG.pairOf (urlencode k ++ "=" ++ urlencode v) =
  (WHATWG.utf8Decode k, WHATWG.utf8Decode v).
Proof.
  unfold WHATWG.pairOf.
  change (urlencode k ++ "=" ++ urlencode v)
    with (urlencode k ++ String "=" (urlencode v)).
  rewrite cut_at by (apply urlencode_isNot; simpl; auto).
  now rewrite !formDecode_urlencode.
Qed.

Lemma toString_cons (k v : string) (next : string * string) (rest : URLSearchParams) :
  URLSearchParams_toString ((k, v) :: next :: rest) =
  (urlencode k ++ "=" ++ urlencode v)
  ++ String "&" (URLSearchParams_toString (next :: rest)).
Proof. cbn [URLSearchParams_toString]. destruct next. now rewrite !append_assoc. Qed.

(** Parsing what [toString()] writes gives the parameters back, in
    order, each name and each value as its UTF-8 decoding, whatever bytes
    they contain. *)
Lemma parseUrlencoded_toString (params : URLSearchParams) :
  WHATWG.parseUrlencoded (URLSearchParams_toString params) =
  map (fun pair => (WHATWG.utf8Decode (fst pair), WHATWG.utf8Decode (snd pair))) params.
Proof.
  unfold WHATWG.parseUrlencoded.
  induction params as [|[k v] rest IH]; [reflexivity|].
  destruct rest as [|pair' rest].
  - cbn [URLSearchParams_toString].
    rewrite splitAmp_absent by apply pair_isNot_amp.
    cbn [filter]. rewrite pair_not_empty. cbn [negb map]. now rewrite pairOf_pair.
  - rewrite toString_cons, splitAmp_at by apply pair_isNot_amp.
    cbn [filter]. rewrite pair_not_empty. cbn [negb map].
    now rewrite pairOf_pair, IH.
Qed.

Lemma toString_isQueryByte (params : URLSearchParams) :
  allBytes isQueryByte (URLSearchParams_toString params) = true.
Proof.
  assert (Hform : forall s, allBytes isQueryByte (urlencode s) = true).
  { intros s. apply (allBytes_weaken isFormByte); [|apply urlencode_isFormByte].
    intros c Hc. unfold isQueryByte. now rewrite Hc. }
  induction params as [|[k v] rest IH]; [reflexivity|].
  destruct rest as [|pair' rest].
  - cbn [URLSearchParams_toString]. rewrite !allBytes_app, !Hform. reflexivity.
  - rewrite toString_cons, !allBytes_app, !Hform. cbn [allBytes].
    rewrite IH. reflexivity.
Qed.

Lemma trimEnd_id (s : string) :
  allBytes (fun c => negb (WHATWG.isC0OrSpace c)) s = true ->
  WHATWG.trimEnd s = s.
Proof.
  induction s as [|c s IH]; [reflexivity|].
  cbn [allBytes WHATWG.trimEnd WHATWG.allC0OrSpace].
  rewrite andb_true_iff, negb_true_iff. intros [Hc Hs].
  now rewrite Hc, (IH Hs).
Qed.

Lemma removeTabsAndNewlines_id (s : string) :
  allBytes (fun c => negb (WHATWG.isTabOrNewline c)) s = true ->
  WHATWG.removeTabsAndNewlines s = s.
Proof.
  induction s as [|c s IH]; [reflexivity|].
  cbn [allBytes WHATWG.removeTabsAndNewlines].
  rewrite andb_true_iff, negb_true_iff. intros [Hc Hs].
  now rewrite Hc, (IH Hs).
Qed.

Lemma isQueryByte_plain (c : ascii) :
  isQueryByte c = true ->
  negb (WHATWG.isC0OrSpace c) = true
  /\ negb (WHATWG.isTabOrNewline c) = true
  /\ isNot "#" c = true.
Proof.
  destruct c as [[] [] [] [] [] [] [] []];
    first [discriminate | intros _; repeat split].
Qed.

Lemma searchParams_getAuthorizationUrl (cId scope rUri : string) :
  WHATWG.searchParams (getAuthorizationUrl cId scope rUri) =
  Some (WHATWG.parseUrlencoded
          (URLSearchParams_toString
             [("response_type", "code"); ("client_id", cId);
              ("redirect_uri", rUri); ("scope", scope)])).
Proof.
  unfold WHATWG.searchParams, getAuthorizationUrl.
  set (query := URLSearchParams_toString
                  [("response_type", "code"); ("client_id", cId);
                   ("redirect_uri", rUri); ("scope", scope)]).
  assert (Hquery : allBytes isQueryByte query = true) by apply toString_isQueryByte.
  set (full := LINKEDIN_URLS.AUTHORIZATION ++ "?" ++ query).
  change (WHATWG.trimStart full) with full.
  rewrite trimEnd_id, removeTabsAndNewlines_id.
  - change (WHATWG.schemeStartState full)
      with (Some ("https",
                  "//www.linkedin.com/oauth/v2/authorization" ++ String "?" query)).
    cbv beta iota. rewrite (cut_absent "#").
    + cbn [fst]. rewrite cut_at by reflexivity. reflexivity.
    + rewrite allBytes_app. cbn [allBytes isNot].
      rewrite (allBytes_weaken isQueryByte (isNot "#") query); [reflexivity | | exact Hquery].
      intros c Hc. now apply isQueryByte_plain.
  - unfold full. rewrite !allBytes_app.
    rewrite (allBytes_weaken isQueryByte _ query); [reflexivity | | exact Hquery].
    intros c Hc. now apply isQueryByte_plain.
  - unfold full. rewrite !allBytes_app.
    rewrite (allBytes_weaken isQueryByte _ query); [reflexivity | | exact Hquery].
    intros c Hc. now apply isQueryByte_plain.
Qed.

(** X11.  The authorization URL parses, and its query holds the four
    parameters [response_type=code], [client_id], [redirect_uri] and
    [scope], in this order, whatever bytes the texts given contain: a
    client id, a scope or a redirect URI cannot end its parameter, add
    one, or start a fragment.  Each text comes back as its UTF-8
    decoding, which is the text itself when it is well-formed UTF-8. *)
Theorem authorization_url_parameters (cId scope rUri : string) :
  WHATWG.searchParams (getAuthorizationUrl cId scope rUri) =
  Some [("response_type", "code"); ("client_id", WHATWG.utf8Decode cId);
        ("redirect_uri", WHATWG.utf8Decode rUri); ("scope", WHATWG.utf8Decode scope)]
  /\ (wellFormedUTF8 cId = true ->
      wellFormedUTF8 rUri = true ->
      wellFormedUTF8 scope = true ->
      WHATWG.searchParams (getAuthorizationUrl cId scope rUri) =
      Some [("response_type", "code"); ("client_id", cId);
            ("redirect_uri", rUri); ("scope", scope)]).
Proof.
  rewrite searchParams_getAuthorizationUrl, parseUrlencoded_toString.
  split; [reflexivity|]. intros HcId HrUri Hscope. cbn [map fst snd].
  now rewrite (utf8Decode_wellFormed cId), (utf8Decode_wellFormed rUri),
    (utf8Decode_wellFormed scope).
Qed.

(** The authorization URL of the test suite. *)
Lemma authorization_url_parameters_witness :
  wellFormedUTF8 "test-client-id" = true
  /\ wellFormedUTF8 "https://test.com/callback" = true
  /\ wellFormedUTF8 "openid email profile" = true
  /\ WHATWG.searchParams
       (getAuthorizationUrl "test-client-id" "openid email profile"
          "https://test.com/callback") =
     Some [("response_type", "code"); ("client_id", "test-client-id");
           ("redirect_uri", "https://test.com/callback");
           ("scope", "openid email profile")].
Proof.
  split; [reflexivity | split; [reflexivity | split; [reflexivity|]]].
  exact (proj2 (authorization_url_parameters "test-client-id" "openid email profile"
                  "https://test.com/callback") eq_refl eq_refl eq_refl).
Defined.

(** X12.  The body of the token request is a form whose five fields,
    once parsed, are [grant_type=authorization_code], the code, the client
    id, the client secret and the redirect URI, whatever bytes the texts
    given contain: no byte of a credential or of the code can alter the
    form.  Each text comes back as its UTF-8 decoding, which is the text
    itself when it is well-formed UTF-8. *)
Theorem token_request_body_parameters (code cId cSecret rUri : string) :
  exists body,
    req_body (tokenRequest code cId cSecret rUri) = Some body
    /\ WHATWG.parseUrlencoded body =
       [("grant_type", "authorization_code"); ("code", WHATWG.utf8Decode code);
        ("client_id", WHATWG.utf8Decode cId);
        ("client_secret", WHATWG.utf8Decode cSecret);
        ("redirect_uri", WHATWG.utf8Decode rUri)]
    /\ (wellFormedUTF8 code = true ->
        wellFormedUTF8 cId = true ->
        wellFormedUTF8 cSecret = true ->
        wellFormedUTF8 rUri = true ->
        WHATWG.parseUrlencoded body =
        [("grant_type", "authorization_code"); ("code", code); ("client_id", cId);
         ("client_secret", cSecret); ("redirect_uri", rUri)]).
Proof.
  eexists. split; [reflexivity|].
  rewrite parseUrlencoded_toString. split; [reflexivity|].
  intros Hcode HcId HcSecret HrUri. cbn [map fst snd].
  now rewrite (utf8Decode_wellFormed code), (utf8Decode_wellFormed cId),
    (utf8Decode_wellFormed cSecret), (utf8Decode_wellFormed rUri).
Qed.

(** The token request of the test suite. *)
Lemma token_request_body_parameters_witness :
  let request := tokenRequest "test-auth-code" "test-client-id" "test-client-secret"
                   "https://test.com/callback" in
  exists body,
    req_body request = Some body
    /\ WHATWG.parseUrlencoded body =
       [("grant_type", "authorization_code"); ("code", "test-auth-code");
        ("client_id", "test-client-id"); ("client_secret", "test-client-secret");
        ("redirect_uri", "https://test.com/callback")].
Proof.
  intros request.
  destruct (token_request_body_parameters "test-auth-code" "test-client-id"
              "test-client-secret" "https://test.com/callback")
    as [body [Hbody [_ Hfields]]].
  exists body. split; [exact Hbody|].
  exact (Hfields eq_refl eq_refl eq_refl eq_refl).
Defined.

(** The reference parser where the constructor throws, and where the
    decoder replaces: a port above 65535, a special scheme without a
    host, an IPv4 address out of range and an unclosed IPv6 address are
    failures; an escape that is not UTF-8 is read as U+FFFD. *)
Example reference_parser_at_its_edges :
  WHATWG.searchParams "https://test.com:99999/callback?code=abc" = None
  /\ WHATWG.searchParams "https://test.com:65535/callback?code=abc" = Some [("code", "abc")]
  /\ WHATWG.searchParams "https:?code=abc" = None
  /\ WHATWG.searchParams "https:test.com?code=abc" = Some [("code", "abc")]
  /\ WHATWG.searchParams "https://user@/callback?code=abc" = None
  /\ WHATWG.searchParams "https://te st.com/callback?code=abc" = None
  /\ WHATWG.searchParams "https://1.2.3.256/callback?code=abc" = None
  /\ WHATWG.searchParams "https://[::1/callback?code=abc" = None
  /\ WHATWG.searchParams "https://[::ffff:1.2.3.4]:8080/callback?code=abc" =
     Some [("code", "abc")]
  /\ WHATWG.searchParams "myapp:?code=abc" = Some [("code", "abc")]
  /\ WHATWG.searchParams "https://test.com/callback?code=caf%E9" =
     Some [("code", "caf" ++ WHATWG.replacement)]
  /\ WHATWG.searchParams "https://test.com/callback?code=caf%C3%A9&state=a+b%2Bc#code=x" =
     Some [("code", "caf" ++ String (ascii_of_nat 195) (String (ascii_of_nat 169) EmptyString));
           ("state", "a b+c")].
Proof. repeat split. Qed.

(** ** The authorization URL and the intercept *)

Lemma prefix_get (p w : string) :
  String.prefix p w = true ->
  forall i c, String.get i p = Some c -> String.get i w = Some c.
Proof.
  revert w. induction p as [|a p IH]; intros w Hprefix i c Hget; [discriminate|].
  destruct w as [|b w]; [discriminate|]. simpl in Hprefix.
  destruct (ascii_dec a b) as [<- | _]; [|discriminate].
  destruct i as [|i]; [exact Hget|]. simpl in *. now apply IH.
Qed.

Lemma get_past (sep : ascii) (n : nat) (s t : string) :
  allBytes (isNot sep) s = true ->
  (forall i, i < n -> String.get i t <> Some sep) ->
  forall i, i < n + String.length s -> String.get i (s ++ t) <> Some sep.
Proof.
  intros Hs Ht. induction s as [|c s IH]; intros i Hi.
  - apply Ht. simpl in Hi. lia.
  - simpl in Hs. apply andb_true_iff in Hs. destruct Hs as [Hc Hs].
    destruct i as [|i]; simpl.
    + intros H. inversion H. subst c. unfold isNot in Hc.
      now rewrite Ascii.eqb_refl in Hc.
    + apply IH; [exact Hs|]. simpl in Hi. lia.
Qed.

(** A text that ends in [sep] does not begin inside a stretch without
    [sep]. *)
Lemma includes_past (p s t : string) (sep : ascii) (n : nat) :
  String.get n p = Some sep ->
  allBytes (isNot sep) s = true ->
  (forall i, i < n -> String.get i t <> Some sep) ->
  includes (s ++ t) p = includes t p.
Proof.
  intros Hp Hs Ht. induction s as [|c s IH]; [reflexivity|].
  assert (Hs' : allBytes (isNot sep) s = true)
    by (simpl in Hs; now apply andb_true_iff in Hs).
  change (includes (String c s ++ t) p)
    with (String.prefix p (String c (s ++ t)) || includes (s ++ t) p).
  rewrite (IH Hs').
  destruct (String.prefix p (String c (s ++ t))) eqn:Hprefix; [|reflexivity].
  exfalso. apply (get_past sep n (String c s) t Hs Ht n); [simpl; lia|].
  exact (prefix_get p _ Hprefix n sep Hp).
Qed.

Lemma includes_none (p s : string) (sep : ascii) (n : nat) :
  String.get n p = Some sep ->
  allBytes (isNot sep) s = true ->
  includes s p = false.
Proof.
  intros Hp Hs.
  assert (H := includes_past p s EmptyString sep n Hp Hs).
  assert (Hnil : forall r, r ++ EmptyString = r)
    by (induction r; simpl; congruence).
  rewrite Hnil in H. rewrite H.
  - destruct p; [discriminate | reflexivity].
  - intros i _. now destruct i.
Qed.

(** The authorization URL contains neither [code=] nor [error=]. *)
Lemma authorization_url_texts (cId scope rUri : string) (p : string) (n : nat) :
  (p = "code=" /\ n = 4) \/ (p = "error=" /\ n = 5) ->
  includes (getAuthorizationUrl cId scope rUri) p = false.
Proof.
  intros Hp.
  assert (Hget : String.get n p = Some "="%char)
    by (destruct Hp as [[-> ->] | [-> ->]]; reflexivity).
  assert (Hn : n <= 5) by (destruct Hp as [[_ ->] | [_ ->]]; lia).
  assert (Hencode : forall s, allBytes (isNot "=") (urlencode s) = true)
    by (intros s; apply urlencode_isNot; simpl; auto).
  transitivity
    (includes (urlencode cId
               ++ "&redirect_uri="
               ++ urlencode rUri ++ "&scope=" ++ urlencode scope) p).
  { destruct Hp as [[-> _] | [-> _]]; reflexivity. }
  rewrite (includes_past p _ _ "=" n Hget (Hencode cId)).
  - transitivity (includes (urlencode rUri ++ "&scope=" ++ urlencode scope) p).
    { destruct Hp as [[-> _] | [-> _]]; reflexivity. }
    rewrite (includes_past p _ _ "=" n Hget (Hencode rUri)).
    + transitivity (includes (urlencode scope) p).
      { destruct Hp as [[-> _] | [-> _]]; reflexivity. }
      exact (includes_none p _ "=" n Hget (Hencode scope)).
    + intros i Hi.
      do 5 (destruct i as [|i]; [discriminate|]). lia.
  - intros i Hi.
    do 5 (destruct i as [|i]; [discriminate|]). lia.
Qed.

(** X13.  The component never intercepts its own authorization URL:
    whatever the client id, the scope and the redirect URI it was built
    from, and whatever the props of the intercept, the URL is
    PassThrough, so the navigation to the provider's page proceeds and
    nothing is called. *)
Theorem authorization_url_passes_through
    (env : Env) (props : LinkedInModal.Props) (cId scope rUri : string) :
  classify (LinkedInModal.redirectUri props) (getAuthorizationUrl cId scope rUri) =
    PassThrough
  /\ handleNavigationStateChange env props (getAuthorizationUrl cId scope rUri) =
     ([], inr true).
Proof.
  assert (Hclass : classify (LinkedInModal.redirectUri props)
                     (getAuthorizationUrl cId scope rUri) = PassThrough).
  { unfold classify.
    rewrite (authorization_url_texts cId scope rUri "code=" 4) by auto.
    rewrite (authorization_url_texts cId scope rUri "error=" 5) by auto.
    now rewrite andb_false_r. }
  split; [exact Hclass|].
  destruct (LinkedInModal.logout props) eqn:Hlogout.
  - now apply handleNavigationStateChange_logout.
  - now rewrite handleNavigationStateChange_classify, Hclass.
Qed.

(** ** What the component renders *)

Lemma nonEmpty_true (s : string) : nonEmpty s = true <-> s <> EmptyString.
Proof.
  unfold nonEmpty. destruct (String.eqb_spec s EmptyString); simpl; split;
    congruence.
Qed.

(** X14.  Once the effect has run, the component shows one of three
    things.  The missing-props message: only outside logout mode, when
    visible, with an empty client id, redirect URI or client secret.  The
    logout web view, on the logout URL: in logout mode, whatever the
    credentials.  The login web view: outside logout mode, and when it is
    visible the three credentials are not empty and it is on the
    authorization URL built from the current props, not on a URL of
    earlier props. *)
Theorem screen_after_effect
    (props : LinkedInModal.Props) (authUrl : string) (isLoading : bool) :
  match render props (authUrlEffect props authUrl) isLoading with
  | MissingProps =>
      LinkedInModal.logout props = false
      /\ LinkedInModal.isVisible props = true
      /\ (LinkedInModal.clientId props = EmptyString
          \/ LinkedInModal.redirectUri props = EmptyString
          \/ LinkedInModal.clientSecret props = EmptyString)
  | Dialog visible LogoutView uri overlay =>
      LinkedInModal.logout props = true
      /\ visible = LinkedInModal.isVisible props
      /\ uri = LINKEDIN_URLS.LOG_OUT
      /\ overlay = isLoading
  | Dialog visible LoginView uri overlay =>
      LinkedInModal.logout props = false
      /\ visible = LinkedInModal.isVisible props
      /\ overlay = isLoading
      /\ (visible = true ->
          LinkedInModal.clientId props <> EmptyString
          /\ LinkedInModal.redirectUri props <> EmptyString
          /\ LinkedInModal.clientSecret props <> EmptyString
          /\ uri = getAuthorizationUrl (LinkedInModal.clientId props)
                     (LinkedInModal.scope props) (LinkedInModal.redirectUri props))
      /\ (visible = false -> uri = authUrl)
  end.
Proof.
  unfold render, authUrlEffect.
  destruct (nonEmpty (LinkedInModal.clientId props)) eqn:HcId,
           (nonEmpty (LinkedInModal.redirectUri props)) eqn:HrUri,
           (nonEmpty (LinkedInModal.clientSecret props)) eqn:HcSecret,
           (LinkedInModal.logout props) eqn:Hlogout,
           (LinkedInModal.isVisible props) eqn:Hvisible;
    cbn [negb andb orb];
    repeat match goal with
           | H : nonEmpty _ = true |- _ => apply nonEmpty_true in H
           | H : nonEmpty ?s = false |- _ =>
               assert (s = EmptyString)
                 by (unfold nonEmpty in H; apply negb_false_iff in H;
                     now apply String.eqb_eq in H);
               clear H
           end;
    repeat split; auto; try discriminate; try (intros _; repeat split; auto).
Qed.

(** ** One outcome per redirect *)

(** X15.  A handshake started by the component calls the host's
    [onSuccess] or [onError] once, one of the two, provided the host's
    [onSuccess] and [onClose] return: the close that follows a success is
    part of what must not throw. *)
Theorem component_reports_one_outcome
    (env : Env) (props : LinkedInModal.Props) (u : string) :
  (forall profileData, call_outcome env (OnSuccess profileData) = None) ->
  call_outcome env OnClose = None ->
  outcomeCalls (events (handleAuthCallback env (authCallbackParams env props u))) = 1.
Proof.
  intros HonSuccess HonClose. rewrite component_run, outcomeCalls_app.
  rewrite (quiet_outcomeCalls (handshake env (authCallbackParams env props u)))
    by now apply handshake_quiet.
  unfold afterHandshake.
  destruct (completion (handshake env (authCallbackParams env props u)))
    as [e | profileData]; [reflexivity|].
  rewrite HonSuccess, HonClose.
  destruct (LinkedInModal.closeOnSuccess props); reflexivity.
Qed.

(** The callbacks of the test suite return; its successful run reports
    one outcome. *)
Lemma component_reports_one_outcome_witness :
  (forall profileData, call_outcome jestEnv (OnSuccess profileData) = None)
  /\ call_outcome jestEnv OnClose = None
  /\ outcomeCalls
       (events (handleAuthCallback jestEnv
                  (authCallbackParams jestEnv defaultProps
                     "https://test.com/callback?code=test-auth-code"))) = 1.
Proof.
  split; [intros profileData; reflexivity | split; [reflexivity|]].
  exact (component_reports_one_outcome jestEnv defaultProps
           "https://test.com/callback?code=test-auth-code"
           (fun _ => eq_refl) eq_refl).
Defined.

(** When the host's [onClose] throws after a success, [onError] is called
    as well. *)
Example throwing_onClose_is_reported_as_an_error :
  handleNavigationStateChange throwingOnCloseEnv defaultProps
    "https://test.com/callback?code=test-auth-code" =
  ([Call (SetIsLoading true);
    Fetch (tokenRequest "test-auth-code" "test-client-id" "test-client-secret"
             "https://test.com/callback");
    Fetch (profileRequest "test-access-token");
    Call (OnSuccess mockProfileResponse);
    Call OnClose;
    Call (OnError "navigator is gone");
    Call (SetIsLoading false)],
   inr false).
Proof. reflexivity. Qed.

(** ** An error that passes the success test *)

(** X16.  Outside logout mode, a redirect that passes the success test
    and carries a non-empty [error_description] is reported through the
    handshake: [onError] receives the description (normalised), no request
    is sent, the navigation is blocked, and, unlike for a RedirectError,
    [onClose] is not called. *)
Theorem error_description_on_success_redirect
    (env : Env) (props : LinkedInModal.Props) (u : string)
    (params : URLSearchParams) (description : string) :
  LinkedInModal.logout props = false ->
  classify (LinkedInModal.redirectUri props) u = RedirectSuccess ->
  call_outcome env (SetIsLoading true) = None ->
  URL_searchParams env u = Some params ->
  get params "error_description" = Some description ->
  description <> EmptyString ->
  handleNavigationStateChange env props u =
  ([Call (SetIsLoading true); Call (OnError (surfaced env description));
    Call (SetIsLoading false)],
   inr false).
Proof.
  intros Hlogout Hclass Hreturns Hparams Hget Hne.
  rewrite handleNavigationStateChange_classify, Hclass by assumption.
  rewrite component_run.
  rewrite (handshake_table env (authCallbackParams env props u) eq_refl).
  unfold handshakeTable. cbn [url authCallbackParams].
  rewrite Hreturns, Hparams.
  replace (truthyString (get params "error_description")) with (Some description)
    by (symmetry; apply truthyString_Some; auto).
  reflexivity.
Qed.

(** A denied consent whose [state] carries the text [code=]. *)
Lemma error_description_on_success_redirect_witness :
  let u := "https://test.com/callback?error=access_denied&error_description=User+denied&state=code=1" in
  LinkedInModal.logout defaultProps = false
  /\ classify (LinkedInModal.redirectUri defaultProps) u = RedirectSuccess
  /\ URL_searchParams jestEnv u =
     Some [("error", "access_denied"); ("error_description", "User denied");
           ("state", "code=1")]
  /\ handleNavigationStateChange jestEnv defaultProps u =
     ([Call (SetIsLoading true); Call (OnError "User denied");
       Call (SetIsLoading false)],
      inr false).
Proof.
  intros u. split; [reflexivity | split; [reflexivity | split; [reflexivity|]]].
  refine (error_description_on_success_redirect jestEnv defaultProps u _ "User denied"
            eq_refl eq_refl eq_refl eq_refl eq_refl _).
  discriminate.
Defined.
